(** * Table extraction front end: page classification and cross-page merging

    A shallow embedding of [src/utils.py] (per-page extraction mode, zoom,
    token extraction) and [src/app.py] (cross-page table merger, token
    metadata fill), with the properties of the specification stated over
    these definitions. *)

From Stdlib Require Import ZArith Ascii String List DecimalString Sorting.Sorted.
From Stdlib Require Import Floats.PrimFloat.
From Stdlib Require DecimalNat.
From stdpp Require Import base option list strings gmap sorting.

Local Open Scope Z_scope.

(** ** Python built-ins used by the program

    Python [str] values are modelled by [string]; one character of the model
    stands for one code point, so the model covers the text of code points
    0..255.  Python [int] is unbounded and is modelled by [Z]. *)
Module Py.

(** [prefix p s]: does [s] start with [p]. *)
Fixpoint prefix (p s : string) : bool :=
  match p, s with
  | EmptyString, _ => true
  | String a p', String b s' => if Ascii.eqb a b then prefix p' s' else false
  | String _ _, EmptyString => false
  end.

(** Left-to-right scan of [s.replace(old, new)] for a non-empty [old];
    [skip] counts the characters of a match still to be dropped. *)
Fixpoint replace_go (old new : string) (skip : nat) (s : string) : string :=
  match s with
  | EmptyString => EmptyString
  | String a s' =>
      match skip with
      | S k => replace_go old new k s'
      | O =>
          if prefix old s
          then String.append new (replace_go old new (Nat.pred (String.length old)) s')
          else String a (replace_go old new O s')
      end
  end.

(** [s.replace(old, new)], [old] non-empty. *)
Definition replace (old new s : string) : string := replace_go old new O s.

(** [s.split(sep)] for a one-character separator: never empty, one more
    part than there are separators. *)
Fixpoint split (sep : ascii) (s : string) : list string :=
  match s with
  | EmptyString => [EmptyString]
  | String a s' =>
      if Ascii.eqb a sep then EmptyString :: split sep s'
      else match split sep s' with
           | part :: parts => String a part :: parts
           | [] => [String a EmptyString]
           end
  end.

(** Whitespace of [str.strip()] among the code points 0..255: TAB..CR,
    FS..US, the space, NEL (U+0085) and the no-break space (U+00A0). *)
Definition is_space (a : ascii) : bool :=
  let n := nat_of_ascii a in
  ((9 <=? n)%nat && (n <=? 13)%nat) || ((28 <=? n)%nat && (n <=? 32)%nat)
  || (n =? 133)%nat || (n =? 160)%nat.

(** Whitespace of [int()] among the code points 0..255: the conversion
    turns NEL and the no-break space into spaces and then skips TAB..CR and
    the space around the number; FS..US are not skipped. *)
Definition int_space (a : ascii) : bool :=
  let n := nat_of_ascii a in
  ((9 <=? n)%nat && (n <=? 13)%nat) || (n =? 32)%nat
  || (n =? 133)%nat || (n =? 160)%nat.

(** Dropping the leading characters that satisfy [sp]. *)
Fixpoint lstrip_by (sp : ascii → bool) (s : string) : string :=
  match s with
  | EmptyString => EmptyString
  | String a s' => if sp a then lstrip_by sp s' else s
  end.

(** Dropping the trailing characters that satisfy [sp]. *)
Fixpoint rstrip_by (sp : ascii → bool) (s : string) : string :=
  match s with
  | EmptyString => EmptyString
  | String a s' =>
      match rstrip_by sp s' with
      | EmptyString => if sp a then EmptyString else String a EmptyString
      | r => String a r
      end
  end.

Definition strip_by (sp : ascii → bool) (s : string) : string :=
  rstrip_by sp (lstrip_by sp s).

Definition lstrip (s : string) : string := lstrip_by is_space s.

Definition rstrip (s : string) : string := rstrip_by is_space s.

(** [s.strip()] *)
Definition strip (s : string) : string := strip_by is_space s.

Definition digit (a : ascii) : option Z :=
  let n := nat_of_ascii a in
  if ((48 <=? n)%nat && (n <=? 57)%nat)%bool then Some (Z.of_nat n - 48) else None.

(** Digits of a decimal literal after the first one; a single underscore is
    allowed between two digits. [us] records that the previous character
    was an underscore. *)
Fixpoint digits (acc : Z) (us : bool) (s : string) : option Z :=
  match s with
  | EmptyString => if us then None else Some acc
  | String a s' =>
      match digit a with
      | Some d => digits (10 * acc + d) false s'
      | None =>
          if (Ascii.eqb a "_" && negb us)%bool then digits acc true s' else None
      end
  end.

Definition unsigned (s : string) : option Z :=
  match s with
  | String a s' => match digit a with Some d => digits d false s' | None => None end
  | EmptyString => None
  end.

(** [int(s)] in base 10; [None] stands for [ValueError]. Among the code
    points 0..255 the decimal digits are the ASCII ones. The limit that
    recent interpreters put on the number of digits is outside the model. *)
Definition int (s : string) : option Z :=
  match strip_by int_space s with
  | String "-" s' => Z.opp <$> unsigned s'
  | String "+" s' => unsigned s'
  | s' => unsigned s'
  end.

End Py.

(** ** pandas, as far as [app.py] uses it *)

(** A parsed table: ordered column labels and ordered rows. *)
Record DataFrame (cell : Type) := mkDataFrame {
  columns : list string;
  rows : list (list cell)
}.
Arguments mkDataFrame {cell} _ _.
Arguments columns {cell} _.
Arguments rows {cell} _.

(** The reader and the writer of the library are parameters of the
    development: [read_csv] may raise ([None]), [to_csv] is
    [df.to_csv(index=False)]. *)
Class Pandas := {
  cell : Type;
  read_csv : string → option (DataFrame cell);
  to_csv : DataFrame cell → string
}.

(** [pd.concat([a, b], ignore_index=True)] for two frames with the same
    column labels, the only case in which the program calls it: the rows of
    [b] follow the rows of [a]. *)
Definition concat {cell : Type} (a b : DataFrame cell) : DataFrame cell :=
  {| columns := columns a; rows := rows a ++ rows b |}.

(** ** [app.py]: the cross-page merger *)
Module App.
Section merger.
Context `{Pandas}.

(** One element of [tables_data]: the dict with keys ['fname'], ['page']
    and ['df']. *)
Record Table := mkTable {
  fname : string;
  page : Z;
  df : DataFrame cell
}.

(** The page number of a file name: [int(parts[1])], [None] when the
    indexing or the conversion raises. *)
Definition page_number (fname : string) : option Z :=
  let parts := Py.split "_" (Py.replace ".csv" EmptyString fname) in
  part ← parts !! 1%nat;
  Py.int part.

(** Body of the [try] of the parsing loop; the bare [except: pass] turns
    every exception into [None]. *)
Definition parse_entry (entry : string * string) : option Table :=
  let '(fname, content) := entry in
  page_num ← page_number fname;
  df ← read_csv content;
  Some {| fname := fname; page := page_num; df := df |}.

(** The parsing loop: entries that raise are skipped. *)
Definition parse_csvs (csv_results : list (string * string)) : list Table :=
  omap parse_entry csv_results.

(** [tables_data.sort(key=lambda x: x['page'])]: the sort of Python lists
    is stable, so its result is the one of this insertion sort. *)
Fixpoint insert_by_page (t : Table) (l : list Table) : list Table :=
  match l with
  | [] => [t]
  | u :: l' => if page t <=? page u then t :: l else u :: insert_by_page t l'
  end.

Fixpoint sort_by_page (l : list Table) : list Table :=
  match l with
  | [] => []
  | t :: l' => insert_by_page t (sort_by_page l')
  end.

(** The order of the sort key. *)
Definition by_page (t u : Table) : Prop := page t ≤ page u.

(** The three heuristics of the merge test. *)
Definition is_consecutive (current next_table : Table) : bool :=
  page next_table =? page current + 1.

Definition is_same_cols (current next_table : Table) : bool :=
  (length (columns (df current)) =? length (columns (df next_table)))%nat.

Definition headers_match (current next_table : Table) : bool :=
  bool_decide (columns (df current) = columns (df next_table)).

Definition should_merge (current next_table : Table) : bool :=
  is_consecutive current next_table
  && is_same_cols current next_table
  && headers_match current next_table.

(** The tuple appended to [merged_results]. *)
Definition emit (current : Table) : string * string :=
  (fname current, to_csv (df current)).

(** State of the [while] loop: the list of dicts (shared and updated in
    place), the index [i] and the output list. *)
Record MergeState := mkMergeState {
  tables_data : list Table;
  idx : nat;
  merged_results : list (string * string)
}.

(** [current['df'] = merged_df; i += 1; continue] *)
Definition merged_state (st : MergeState) (current next_table : Table) : MergeState :=
  {| tables_data :=
       <[idx st := {| fname := fname current; page := page current;
                      df := concat (df current) (df next_table) |}]> (tables_data st);
     idx := S (idx st);
     merged_results := merged_results st |}.

(** [merged_results.append(...); i += 1] *)
Definition emitted_state (st : MergeState) (current : Table) : MergeState :=
  {| tables_data := tables_data st;
     idx := S (idx st);
     merged_results := merged_results st ++ [emit current] |}.

(** One iteration of the loop; [None] when [i < len(tables_data)] fails. *)
Definition merge_step (st : MergeState) : option MergeState :=
  match tables_data st !! idx st with
  | None => None
  | Some current =>
      match tables_data st !! S (idx st) with
      | Some next_table =>
          if should_merge current next_table
          then Some (merged_state st current next_table)
          else Some (emitted_state st current)
      | None => Some (emitted_state st current)
      end
  end.

(** At most [fuel] iterations of the loop. *)
Fixpoint merge_loop (fuel : nat) (st : MergeState) : MergeState :=
  match fuel with
  | O => st
  | S fuel' =>
      match merge_step st with
      | Some st' => merge_loop fuel' st'
      | None => st
      end
  end.

Definition merge_init (tables : list Table) : MergeState :=
  {| tables_data := tables; idx := O; merged_results := [] |}.

(** The state in which the loop of [merge_cross_page_tables] ends: [i]
    grows by one in each iteration, so [len(tables_data)] iterations
    suffice. *)
Definition merge_final (csv_results : list (string * string)) : MergeState :=
  let tables := sort_by_page (parse_csvs csv_results) in
  merge_loop (length tables) (merge_init tables).

Definition merge_cross_page_tables (csv_results : list (string * string))
  : list (string * string) :=
  match csv_results with
  | [] => []
  | _ => merged_results (merge_final csv_results)
  end.

(** The entries the sweep emits, read off the list: an entry is appended
    to [merged_results] unless the merge test holds for it and its
    successor. [merge_loop_emitted] below proves that the loop computes
    this list. *)
Fixpoint emitted (tables : list Table) : list (string * string) :=
  match tables with
  | [] => []
  | current :: rest =>
      match rest with
      | next_table :: _ =>
          if should_merge current next_table then emitted rest
          else emit current :: emitted rest
      | [] => [emit current]
      end
  end.

End merger.
End App.

(** ** Tokens

    A token is a Python dict, written to and read back from the JSON file of
    its page: string keys, and numbers, strings and lists as values. *)
#[warnings="-register-all"] Inductive value :=
  | VInt (n : Z)
  | VFloat (x : float)
  | VStr (s : string)
  | VList (l : list value).

Abbreviation Token := (gmap string value).

(** ** [app.py]: filling the missing token metadata *)
Module Fill.

(** [if key not in token: token[key] = v] *)
Definition setdefault (key : string) (v : value) (token : Token) : Token :=
  match token !! key with
  | None => <[key := v]> token
  | Some _ => token
  end.

(** Body of the loop over [enumerate(tokens)]. *)
Definition fill_token (idx : nat) (token : Token) : Token :=
  setdefault "block_num" (VInt 0)
    (setdefault "line_num" (VInt 0)
       (setdefault "span_num" (VInt (Z.of_nat idx)) token)).

(** The pass over the token list of one page. *)
Definition fill_missing_metadata (tokens : list Token) : list Token :=
  imap fill_token tokens.

End Fill.

(** ** [utils.py]: per-page extraction *)
Module Utils.

(** A tuple of [page.get_text("words")]; the program reads its first five
    components. *)
Record Word := mkWord {
  w0 : float;
  w1 : float;
  w2 : float;
  w3 : float;
  w4 : string
}.

(** The dict returned by [pytesseract.image_to_data]. *)
Record OcrData := mkOcrData {
  d_text : list string;
  d_left : list Z;
  d_top : list Z;
  d_width : list Z;
  d_height : list Z
}.

(** What the PDF library and the OCR engine answer for one page.
    [saves zoom] tells whether the calls outside the [try] block (rendering
    the page at [zoom], saving the image, writing the JSON file) succeed;
    the program does not handle their failure.
    [image_to_data zoom] is the outcome of opening and enhancing the saved
    image and of the engine call: the dict of the engine, or the message of
    the exception that one of these calls raises. *)
Record Page := mkPage {
  get_text : string;
  get_images : list nat;
  pixmap_width : Z;
  get_text_words : list Word;
  saves : float → bool;
  image_to_data : float → string + OcrData
}.

Definition char_count (page : Page) : Z := Z.of_nat (String.length (get_text page)).

Definition has_images (page : Page) : bool :=
  bool_decide (0 < length (get_images page))%nat.

(** The decision logic: [(use_ocr, mode_label)]. *)
Definition classify (page : Page) : bool * string :=
  if (100 <? char_count page) && negb (has_images page)
  then (false, "Native (Text)")
  else if (100 <? char_count page) && has_images page
  then (true, "OCR (Hybrid)")
  else (true, "OCR (Scanned)").

Definition use_ocr (page : Page) : bool := fst (classify page).
Definition mode_label (page : Page) : string := snd (classify page).

(** Smart zoom. *)
Definition zoom (page : Page) : float :=
  if use_ocr page && (pixmap_width page <? 1500) then 2%float else 1%float.

(** Rendering the page at its zoom and saving the image succeed. *)
Definition renders (page : Page) : Prop := saves page (zoom page) = true.

(** [os.path.join(a, b)] on POSIX. *)
Definition path_join (a b : string) : string :=
  if Py.prefix "/" b then b
  else match String.rev a with
       | EmptyString => b
       | String c _ =>
           if Ascii.eqb c "/" then String.append a b
           else String.append a (String "/" b)
       end.

(** [f"{n:03d}"] *)
Definition fmt_03d (n : nat) : string :=
  let s := NilZero.string_of_uint (Nat.to_uint n) in
  String.append (string_of_list_ascii (repeat "0"%char (3 - String.length s))) s.

Definition img_path (output_dir : string) (page_num : nat) : string :=
  path_join (path_join output_dir "images")
            (String.append "page_" (String.append (fmt_03d page_num) ".jpg")).

Definition json_path (output_dir : string) (page_num : nat) : string :=
  path_join (path_join output_dir "words")
            (String.append "page_" (String.append (fmt_03d page_num) "_words.json")).

(** Native mode: one token per word, the box scaled by [zoom]. *)
Definition native_token (zoom : float) (w : Word) : Token :=
  {[ "bbox" := VList [VFloat (w0 w * zoom); VFloat (w1 w * zoom);
                      VFloat (w2 w * zoom); VFloat (w3 w * zoom)];
     "text" := VStr (w4 w) ]}.

Definition native_words (zoom : float) (page : Page) : list Token :=
  native_token zoom <$> get_text_words page.

Definition ocr_token (text : string) (x y w h : Z) : Token :=
  {[ "text" := VStr text;
     "bbox" := VList [VInt x; VInt y; VInt (x + w); VInt (y + h)] ]}.

(** The loop over [range(len(data['text']))]: the tokens appended to
    [words_data] and the exception that ended the loop, if any. An index
    outside one of the lists raises inside the [try]: the loop stops there
    and [words_data] keeps what was appended before. *)
Fixpoint ocr_loop (data : OcrData) (indices : list nat) (words_data : list Token)
  : list Token * option string :=
  match indices with
  | [] => (words_data, None)
  | i :: indices' =>
      match d_text data !! i with
      | None => (words_data, Some "list index out of range")
      | Some t =>
          let text := Py.strip t in
          if bool_decide (text = EmptyString) then ocr_loop data indices' words_data
          else
            match d_left data !! i, d_top data !! i,
                  d_width data !! i, d_height data !! i with
            | Some x, Some y, Some w, Some h =>
                ocr_loop data indices' (words_data ++ [ocr_token text x y w h])
            | _, _, _, _ => (words_data, Some "list index out of range")
            end
      end
  end.

(** OCR mode: the [try] block; the second component is the exception
    handed to [except Exception as e], if one was raised. *)
Definition ocr_words (zoom : float) (page : Page) : list Token * option string :=
  match image_to_data page zoom with
  | inl e => ([], Some e)
  | inr data => ocr_loop data (seq 0 (length (d_text data))) []
  end.

(** Content extraction of one page: [words_data] and the caught OCR
    exception. *)
Definition extract (page : Page) : list Token * option string :=
  if use_ocr page then ocr_words (zoom page) page
  else (native_words (zoom page) page, None).

Definition words_data (page : Page) : list Token := fst (extract page).

(** [str(n)] for a natural number. *)
Definition str (n : nat) : string := NilZero.string_of_uint (Nat.to_uint n).

Definition cr : string := String (ascii_of_nat 13) EmptyString.
Definition lf : string := String (ascii_of_nat 10) EmptyString.

(** The line printed for every page, ended by a carriage return. *)
Definition status_line (page_num : nat) (page : Page) : string :=
  String.concat EmptyString
    ["  >> Page "; str (page_num + 1); ": ["; mode_label page; "] (Chars:";
     str (String.length (get_text page)); ", Imgs:";
     str (length (get_images page)); ")"; cr].

(** The line printed by the handler of the OCR block. *)
Definition ocr_error_line (page_num : nat) (e : string) : string :=
  String.concat EmptyString [lf; "  [OCR Error] Page "; str (page_num + 1); ": "; e; lf].

Definition ocr_log (page_num : nat) (page : Page) : list string :=
  match snd (extract page) with
  | Some e => [ocr_error_line page_num e]
  | None => []
  end.

(** What the function has produced so far: the returned list, the JSON
    files written (in writing order) and the lines printed. *)
Record Output := mkOutput {
  file_pairs : list (string * string);
  json_files : list (string * list Token);
  stdout : list string
}.

(** One iteration of the loop over [enumerate(doc)]; [None] when the page
    raises outside the [try] of the OCR block. *)
Definition process_page (output_dir : string) (page_num : nat) (page : Page)
    (out : Output) : option Output :=
  if saves page (zoom page) then
    Some {| file_pairs := file_pairs out
              ++ [(img_path output_dir page_num, json_path output_dir page_num)];
            json_files := json_files out
              ++ [(json_path output_dir page_num, words_data page)];
            stdout := stdout out ++ status_line page_num page :: ocr_log page_num page |}
  else None.

Fixpoint process_pages (output_dir : string) (page_num : nat) (doc : list Page)
    (out : Output) : option Output :=
  match doc with
  | [] => Some out
  | page :: doc' =>
      out' ← process_page output_dir page_num page out;
      process_pages output_dir (S page_num) doc' out'
  end.

Definition header_line (doc : list Page) : string :=
  String.concat EmptyString ["=== Processing PDF | Total Pages: "; str (length doc); " ==="; lf].

Definition process_pdf_to_data (doc : list Page) (output_dir : string) : option Output :=
  process_pages output_dir O doc
    {| file_pairs := []; json_files := []; stdout := [header_line doc] |}.

End Utils.

(** ** A small reader and writer for unquoted CSV text

    Enough of [read_csv] and [to_csv] to run the merger on concrete input:
    fields separated by commas, records ended by a line feed, the first
    record holding the column labels. *)
Module PlainCsv.

Definition nl : ascii := ascii_of_nat 10.

Fixpoint join (sep : string) (fields : list string) : string :=
  match fields with
  | [] => EmptyString
  | [f] => f
  | f :: fields' => String.append f (String.append sep (join sep fields'))
  end.

Definition lines (content : string) : list string :=
  filter (λ l, l ≠ EmptyString) (Py.split nl content).

Definition read (content : string) : option (DataFrame string) :=
  match lines content with
  | [] => None
  | header :: records =>
      Some {| columns := Py.split "," header; rows := Py.split "," <$> records |}
  end.

Definition write (df : DataFrame string) : string :=
  String.concat EmptyString
    ((λ fields, String.append (join "," fields) (String nl EmptyString)) <$> (columns df :: rows df)).

#[export] Instance pandas : Pandas :=
  {| cell := string; read_csv := read; to_csv := write |}.

End PlainCsv.

(** ** Sample inputs *)
Module Samples.
Import App Utils PlainCsv.

(** CSV text from its records. *)
Definition text (records : list string) : string :=
  String.concat EmptyString
    ((λ r, String.append r (String PlainCsv.nl EmptyString)) <$> records).

Definition page3_ab : string := text ["A,B"; "1,2"; "3,4"].
Definition page4_ab : string := text ["A,B"; "5,6"; "7,8"; "9,10"].
Definition page5_ab : string := text ["A,B"; "11,12"].
Definition page4_ac : string := text ["A,C"; "5,6"].

Definition entry3 : string * string := ("Page_03_Table_01.csv", page3_ab).
Definition entry4 : string * string := ("Page_04_Table_01.csv", page4_ab).
Definition entry5 : string * string := ("Page_05_Table_01.csv", page5_ab).
Definition entry4_ac : string * string := ("Page_04_Table_01.csv", page4_ac).

(** A file name without a page segment. *)
Definition entry_unnamed : string * string := ("Table.csv", page4_ab).

Definition table3 : Table :=
  {| fname := "Page_03_Table_01.csv"; page := 3;
     df := {| columns := ["A"; "B"]; rows := [["1"; "2"]; ["3"; "4"]] |} |}.
Definition table4 : Table :=
  {| fname := "Page_04_Table_01.csv"; page := 4;
     df := {| columns := ["A"; "B"];
              rows := [["5"; "6"]; ["7"; "8"]; ["9"; "10"]] |} |}.
Definition table5 : Table :=
  {| fname := "Page_05_Table_01.csv"; page := 5;
     df := {| columns := ["A"; "B"]; rows := [["11"; "12"]] |} |}.
Definition table4_ac : Table :=
  {| fname := "Page_04_Table_01.csv"; page := 4;
     df := {| columns := ["A"; "C"]; rows := [["5"; "6"]] |} |}.

(** The two fragments of one table split over pages 3 and 4. *)
Definition two_fragments : list (string * string) := [entry3; entry4].

(** More than 100 characters of text. *)
Definition long_text : string := string_of_list_ascii (repeat "x"%char 101).

Definition word_total : Word :=
  {| w0 := 10.5%float; w1 := 20%float; w2 := 30.25%float; w3 := 40%float;
     w4 := "Total" |}.

(** A text page without images. *)
Definition native_page : Page :=
  {| get_text := long_text; get_images := []; pixmap_width := 612;
     get_text_words := [word_total];
     saves := λ _, true;
     image_to_data := λ _, inl "not called" |}.

(** A scanned page on which the engine raises. *)
Definition scanned_page : Page :=
  {| get_text := EmptyString; get_images := [7%nat]; pixmap_width := 612;
     get_text_words := [];
     saves := λ _, true;
     image_to_data := λ _, inl "tesseract is not installed" |}.

(** A wide text page with an image, read by the engine. *)
Definition hybrid_page : Page :=
  {| get_text := long_text; get_images := [7%nat]; pixmap_width := 2000;
     get_text_words := [word_total];
     saves := λ _, true;
     image_to_data := λ _,
       inr {| d_text := ["Item"; "  "; "Qty"]; d_left := [10; 0; 90];
              d_top := [5; 0; 5]; d_width := [40; 0; 30];
              d_height := [12; 0; 12] |} |}.

Definition document : list Page := [native_page; scanned_page; hybrid_page].

(** What the run on [document] returns. *)
Definition document_output : Output :=
  default {| file_pairs := []; json_files := []; stdout := [] |}
          (process_pdf_to_data document "/tmp/out").

(** Tokens as read back from a JSON file: the first one carries a
    [span_num], the second one no metadata. *)
Definition token_with_span : Token :=
  {[ "text" := VStr "Item"; "span_num" := VInt 9 ]}.
Definition token_bare : Token :=
  {[ "text" := VStr "Qty"; "bbox" := VList [VInt 90; VInt 5; VInt 120; VInt 17] ]}.

End Samples.

(** ** [app.py]: the inference loop of [main] *)
Module Main.

(** [f"{n:02d}"] *)
Definition fmt_02d (n : nat) : string :=
  let s := NilZero.string_of_uint (Nat.to_uint n) in
  String.append (string_of_list_ascii (repeat "0"%char (2 - String.length s))) s.

(** [f"Page_{i+1:02d}_Table_{table_idx+1:02d}.csv"] *)
Definition table_filename (i table_idx : nat) : string :=
  String.concat EmptyString
    ["Page_"; fmt_02d (i + 1); "_Table_"; fmt_02d (table_idx + 1); ".csv"].

(** A dict returned by [pipe.extract], as far as the program reads it: the
    list under the key ['csv'], [None] when the key is absent. *)
Definition ExtractedTable : Type := option (list string).

(** [table['csv'][0]] when ['csv' in table and table['csv'] and
    table['csv'][0]] holds. *)
Definition first_csv (table : ExtractedTable) : option string :=
  match table with
  | Some (c :: _) => if bool_decide (c = EmptyString) then None else Some c
  | _ => None
  end.

(** The loop over [enumerate(extracted_tables)], from index [table_idx]
    on. *)
Fixpoint collect (i table_idx : nat) (extracted_tables : list ExtractedTable)
    (csv_results : list (string * string)) : list (string * string) :=
  match extracted_tables with
  | [] => csv_results
  | table :: extracted_tables' =>
      collect i (S table_idx) extracted_tables'
        match first_csv table with
        | Some c => csv_results ++ [(table_filename i table_idx, c)]
        | None => csv_results
        end
  end.

(** The image library, the JSON reader and the detection model.
    [open_image img_path] is the message of the exception that opening and
    converting the image raises, if it does. [load_json words] is what
    [json.load(f).get('words', [])] gives for a file in which [json.dump]
    wrote [words] as UTF-8 and which is read in the default encoding of the
    platform: the words themselves where that encoding is UTF-8 or the text
    is ASCII, otherwise words with other text or the message of the
    exception. [extract img_path tokens] is the outcome of [pipe.extract] on
    that image and the tokens, the message of its exception or its list of
    tables. *)
Record Pipeline := mkPipeline {
  open_image : string → option string;
  load_json : list Token → string + list Token;
  extract : string → list Token → string + list ExtractedTable
}.

(** Opening and loading the JSON file of a page, on the files written by
    [process_pdf_to_data]: the last file written under the path, read by
    [load_json], or the message of the exception when there is none. *)
Definition read_words (pipe : Pipeline) (files : list (string * list Token))
    (path : string) : string + list Token :=
  match list_find (λ file, file.1 = path) (reverse files) with
  | Some (_, (_, words)) => load_json pipe words
  | None =>
      inl (String.concat EmptyString
             ["[Errno 2] No such file or directory: '"; path; "'"])
  end.

(** The body of the [try] of one page up to the call of the model: the
    tables, or the message of the exception. *)
Definition detect (pipe : Pipeline) (files : list (string * list Token))
    (file_pair : string * string) : string + list ExtractedTable :=
  let '(img_path, json_path) := file_pair in
  match open_image pipe img_path with
  | Some e => inl e
  | None =>
      match read_words pipe files json_path with
      | inl e => inl e
      | inr tokens => extract pipe img_path (Fill.fill_missing_metadata tokens)
      end
  end.

(** The accumulated [csv_results] and the lines printed by the handler. *)
Record Inference := mkInference {
  csv_results : list (string * string);
  printed : list string
}.

Definition error_line (i : nat) (e : string) : string :=
  String.concat EmptyString ["Error on page "; Utils.str i; ": "; e; Utils.lf].

(** One iteration of the loop over [enumerate(file_pairs)]. *)
Definition infer_page (pipe : Pipeline) (files : list (string * list Token))
    (i : nat) (file_pair : string * string) (st : Inference) : Inference :=
  match detect pipe files file_pair with
  | inr extracted_tables =>
      {| csv_results := collect i 0 extracted_tables (csv_results st);
         printed := printed st |}
  | inl e =>
      {| csv_results := csv_results st;
         printed := printed st ++ [error_line i e] |}
  end.

Fixpoint infer_pages (pipe : Pipeline) (files : list (string * list Token))
    (i : nat) (file_pairs : list (string * string)) (st : Inference) : Inference :=
  match file_pairs with
  | [] => st
  | file_pair :: file_pairs' =>
      infer_pages pipe files (S i) file_pairs' (infer_page pipe files i file_pair st)
  end.

(** Phase 2 of [main] on the output of phase 1. *)
Definition infer (pipe : Pipeline) (out : Utils.Output) : Inference :=
  infer_pages pipe (Utils.json_files out) 0 (Utils.file_pairs out)
    {| csv_results := []; printed := [] |}.

End Main.

(** ** Sample inputs of the inference loop *)
Module MainSamples.
Import Utils Main Samples.

(** A platform that reads the JSON files as they were written, with a model
    that finds one table on the first page, raises on the second, and on
    the third returns a dict without CSV text and then a table. *)
Definition pipe : Pipeline :=
  {| open_image := λ _, None;
     load_json := λ words, inr words;
     extract := λ img_path _,
       if bool_decide (img_path = "/tmp/out/images/page_000.jpg")
       then inr [Some [page3_ab]]
       else if bool_decide (img_path = "/tmp/out/images/page_001.jpg")
       then inl "CUDA out of memory"
       else inr [None; Some [page4_ab]] |}.

(** The entries collected on [Samples.document]. *)
Definition results : list (string * string) :=
  csv_results (infer pipe document_output).

(** The dict of the engine on [Samples.hybrid_page]. *)
Definition hybrid_data : OcrData :=
  {| d_text := ["Item"; "  "; "Qty"]; d_left := [10; 0; 90];
     d_top := [5; 0; 5]; d_width := [40; 0; 30];
     d_height := [12; 0; 12] |}.

End MainSamples.

(** * Properties of the merger *)
Section merger_facts.
Import App.
Context `{Pandas}.

Implicit Types (t current next_table : Table) (l tables pre : list Table)
  (st : MergeState) (out : list (string * string)).

(** ** The sort *)

Lemma insert_by_page_perm t l : insert_by_page t l ≡ₚ t :: l.
Proof.
  induction l as [|u l IH]; simpl; [done|].
  case_match; [done|]. rewrite IH. apply Permutation_swap.
Qed.

Lemma sort_by_page_perm l : sort_by_page l ≡ₚ l.
Proof.
  induction l as [|t l IH]; simpl; [done|].
  by rewrite insert_by_page_perm, IH.
Qed.

Lemma insert_by_page_sorted t l :
  StronglySorted by_page l → StronglySorted by_page (insert_by_page t l).
Proof.
  induction 1 as [|u l Hl IH Hu]; simpl.
  - repeat constructor.
  - destruct (Z.leb_spec (page t) (page u)) as [Hle|Hlt].
    + constructor; [by constructor|].
      constructor; [done|].
      eapply Forall_impl; [exact Hu|]. unfold by_page. intros; lia.
    + constructor; [done|].
      rewrite insert_by_page_perm. constructor; [|done].
      unfold by_page. lia.
Qed.

Lemma sort_by_page_sorted l : StronglySorted by_page (sort_by_page l).
Proof.
  induction l; simpl; [constructor | by apply insert_by_page_sorted].
Qed.

(** Entries of one page keep their relative order. *)
Lemma insert_by_page_filter (p : Z) t l :
  StronglySorted by_page l →
  filter (λ u, page u = p) (insert_by_page t l)
  = filter (λ u, page u = p) (t :: l).
Proof.
  induction 1 as [|u l Hl IH Hu]; simpl; [done|].
  destruct (Z.leb_spec (page t) (page u)) as [Hle|Hlt]; [done|].
  rewrite (filter_cons _ u), IH, !filter_cons.
  repeat case_decide; try done; lia.
Qed.

Lemma sort_by_page_stable (p : Z) l :
  filter (λ u, page u = p) (sort_by_page l) = filter (λ u, page u = p) l.
Proof.
  induction l as [|t l IH]; simpl; [done|].
  rewrite insert_by_page_filter by apply sort_by_page_sorted.
  by rewrite !filter_cons, IH.
Qed.


(** A list sorted by page in which the entries of every page are in a given
    order is determined: every stable sort returns the list of
    [sort_by_page]. *)
Lemma stable_sorted_unique l1 : ∀ l2,
  StronglySorted by_page l1 → StronglySorted by_page l2 →
  (∀ p, filter (λ u, page u = p) l1 = filter (λ u, page u = p) l2) →
  l1 = l2.
Proof.
  induction l1 as [|a l1 IH]; intros l2 Hs1 Hs2 Hfilter.
  - destruct l2 as [|b l2]; [done|].
    specialize (Hfilter (page b)). rewrite filter_cons in Hfilter.
    by rewrite decide_True in Hfilter by done.
  - destruct l2 as [|b l2].
    + specialize (Hfilter (page a)). rewrite filter_cons in Hfilter.
      by rewrite decide_True in Hfilter by done.
    + apply StronglySorted_inv in Hs1 as [Hs1 Ha].
      apply StronglySorted_inv in Hs2 as [Hs2 Hb].
      assert (Hab : page a = page b).
      { apply Z.le_antisymm.
        - assert (Hin : b ∈ a :: l1).
          { eapply list_elem_of_filter. rewrite (Hfilter (page b)).
            rewrite filter_cons, decide_True by done. apply list_elem_of_here. }
          apply elem_of_cons in Hin as [->|Hin]; [done|].
          rewrite Forall_forall in Ha. by apply Ha.
        - assert (Hin : a ∈ b :: l2).
          { eapply list_elem_of_filter. rewrite <- (Hfilter (page a)).
            rewrite filter_cons, decide_True by done. apply list_elem_of_here. }
          apply elem_of_cons in Hin as [->|Hin]; [done|].
          rewrite Forall_forall in Hb. by apply Hb. }
      pose proof (Hfilter (page a)) as Hhead.
      rewrite !filter_cons, decide_True in Hhead by done.
      rewrite decide_True in Hhead by done.
      injection Hhead as -> Htail.
      f_equal. apply IH; [done|done|].
      intros p. specialize (Hfilter p). rewrite !filter_cons in Hfilter.
      destruct (decide (page b = p)); [by injection Hfilter|done].
Qed.

(** ** The loop *)

Lemma should_merge_spec current next_table :
  should_merge current next_table = true ↔
    page next_table = page current + 1
    ∧ length (columns (df current)) = length (columns (df next_table))
    ∧ columns (df current) = columns (df next_table).
Proof.
  unfold should_merge, is_consecutive, is_same_cols, headers_match.
  rewrite !andb_true_iff, Z.eqb_eq, Nat.eqb_eq, bool_decide_eq_true.
  tauto.
Qed.

Lemma should_merge_headers current next_table :
  should_merge current next_table = true ↔
    page next_table = page current + 1
    ∧ columns (df current) = columns (df next_table).
Proof.
  rewrite should_merge_spec. split; [tauto|].
  intros [? Hc]. by rewrite Hc.
Qed.

(** The loop emits [emitted] of the entries it has not yet visited. *)
Lemma merge_loop_emitted l : ∀ pre out fuel,
  (length l ≤ fuel)%nat →
  merged_results
    (merge_loop fuel {| tables_data := pre ++ l; idx := length pre;
                        merged_results := out |})
  = out ++ emitted l.
Proof.
  induction l as [|current rest IH]; intros pre out fuel Hfuel.
  - destruct fuel as [|fuel]; simpl; [by rewrite app_nil_r|].
    unfold merge_step; simpl.
    rewrite lookup_ge_None_2 by (rewrite length_app; simpl; lia).
    simpl. by rewrite app_nil_r.
  - destruct fuel as [|fuel]; simpl in Hfuel; [lia|].
    simpl merge_loop. unfold merge_step. cbn [tables_data idx].
    rewrite list_lookup_middle by done.
    replace (pre ++ current :: rest) with ((pre ++ [current]) ++ rest)
      by (by rewrite <- app_assoc).
    assert (Hlen : S (length pre) = length (pre ++ [current]))
      by (rewrite length_app; simpl; lia).
    destruct rest as [|next_table rest'].
    + rewrite lookup_ge_None_2 by (rewrite length_app; simpl; lia).
      unfold emitted_state; cbn [tables_data idx merged_results].
      rewrite Hlen, IH by (simpl; lia). simpl. by rewrite app_nil_r.
    + rewrite Hlen at 1. rewrite list_lookup_middle by done.
      destruct (should_merge current next_table) eqn:Hm.
      * unfold merged_state; cbn [tables_data idx merged_results].
        rewrite <- app_assoc. simpl app at 1.
        rewrite insert_app_r_alt, Nat.sub_diag by lia. simpl insert.
        set (current' := mkTable _ _ _).
        replace (pre ++ current' :: next_table :: rest')
          with ((pre ++ [current']) ++ next_table :: rest')
          by (by rewrite <- app_assoc).
        replace (S (length pre)) with (length (pre ++ [current']))
          by (rewrite length_app; simpl; lia).
        rewrite IH by (simpl in *; lia).
        simpl. by rewrite Hm.
      * unfold emitted_state; cbn [tables_data idx merged_results].
        rewrite Hlen, IH by (simpl in *; lia).
        simpl. rewrite Hm. by rewrite <- app_assoc.
Qed.

(** The result of the function in closed form. *)
Lemma merge_cross_page_tables_emitted csv_results :
  merge_cross_page_tables csv_results
  = emitted (sort_by_page (parse_csvs csv_results)).
Proof.
  destruct csv_results as [|entry csv_results]; [done|].
  unfold merge_cross_page_tables, merge_final, merge_init.
  apply (merge_loop_emitted _ [] []). done.
Qed.

(** Each iteration moves [i] one step and writes at most the dict it
    leaves behind. *)
Lemma merge_step_inv st st' :
  merge_step st = Some st' →
  idx st' = S (idx st)
  ∧ length (tables_data st') = length (tables_data st)
  ∧ ∀ j, (idx st < j)%nat → tables_data st' !! j = tables_data st !! j.
Proof.
  unfold merge_step. intros Hstep.
  repeat case_match; simplify_eq; simpl;
    rewrite ?length_insert; split_and!; try done.
  intros j Hj. apply list_lookup_insert_ne. lia.
Qed.

Lemma merge_step_is_Some st :
  (idx st < length (tables_data st))%nat → is_Some (merge_step st).
Proof.
  intros Hlt. destruct (lookup_lt_is_Some_2 _ _ Hlt) as [current Hc].
  unfold merge_step. rewrite Hc. repeat case_match; eauto.
Qed.

(** After [n] iterations the loop stands at index [i + n] and the entries
    from there on are still the ones of the sorted list. *)
Lemma merge_loop_prefix (n : nat) : ∀ st,
  (idx st + n ≤ length (tables_data st))%nat →
  idx (merge_loop n st) = (idx st + n)%nat
  ∧ length (tables_data (merge_loop n st)) = length (tables_data st)
  ∧ ∀ j, (idx st + n ≤ j)%nat →
      tables_data (merge_loop n st) !! j = tables_data st !! j.
Proof.
  induction n as [|n IH]; intros st Hle; simpl.
  - split_and!; [lia|done|done].
  - destruct (merge_step_is_Some st) as [st' Hst']; [lia|].
    rewrite Hst'. destruct (merge_step_inv _ _ Hst') as (Hi & Hlen & Hsame).
    destruct (IH st') as (Hi' & Hlen' & Hsame'); [lia|].
    split_and!; [lia|congruence|].
    intros j Hj. rewrite Hsame' by lia. apply Hsame. lia.
Qed.

(** The loop ends: its condition fails in the final state. *)
Lemma merge_final_exit csv_results : merge_step (merge_final csv_results) = None.
Proof.
  unfold merge_final.
  set (tables := sort_by_page (parse_csvs csv_results)).
  destruct (merge_loop_prefix (length tables) (merge_init tables))
    as (Hi & Hlen & _); [simpl; lia|].
  unfold merge_step. rewrite lookup_ge_None_2; [done|].
  rewrite Hi, Hlen. simpl. lia.
Qed.


(** ** Inputs of two entries *)

Lemma parse_csvs_pair e e' t t' :
  parse_entry e = Some t → parse_entry e' = Some t' →
  parse_csvs [e; e'] = [t; t'].
Proof. unfold parse_csvs. simpl. by intros -> ->. Qed.

Lemma sort_pair t t' :
  page t ≤ page t' → sort_by_page [t; t'] = [t; t'].
Proof. intros Hle. simpl. by rewrite (proj2 (Z.leb_le _ _) Hle). Qed.

Lemma sort_pair_swap t t' :
  page t < page t' → sort_by_page [t'; t] = [t; t'].
Proof. intros Hlt. simpl. by rewrite (proj2 (Z.leb_gt _ _) Hlt). Qed.

(** Two entries that pass the merge test: only the second one comes out,
    with its own rows. *)
Lemma merge_pair_match e e' t t' :
  parse_entry e = Some t → parse_entry e' = Some t' →
  page t' = page t + 1 → columns (df t) = columns (df t') →
  merge_cross_page_tables [e; e'] = [emit t'].
Proof.
  intros He He' Hp Hc. rewrite merge_cross_page_tables_emitted.
  rewrite (parse_csvs_pair _ _ _ _ He He'), sort_pair by lia. simpl.
  by rewrite (proj2 (should_merge_headers t t')).
Qed.

(** Two entries that fail the merge test come out one after the other, in
    page order, whatever their order in the input. *)
Lemma merge_pair_apart e e' t t' :
  parse_entry e = Some t → parse_entry e' = Some t' →
  page t < page t' → should_merge t t' = false →
  merge_cross_page_tables [e; e'] = [emit t; emit t']
  ∧ merge_cross_page_tables [e'; e] = [emit t; emit t'].
Proof.
  intros He He' Hp Hm. rewrite !merge_cross_page_tables_emitted.
  rewrite (parse_csvs_pair _ _ _ _ He He'), (parse_csvs_pair _ _ _ _ He' He).
  rewrite sort_pair by lia. rewrite sort_pair_swap by lia.
  simpl. by rewrite Hm.
Qed.

Lemma merged_neq_emitted st current next_table :
  merged_state st current next_table ≠ emitted_state st current.
Proof.
  intros Heq. apply (f_equal (λ s, length (merged_results s))) in Heq.
  simpl in Heq. rewrite length_app in Heq. simpl in Heq. lia.
Qed.

(** C2. For every pair of adjacent entries of the page-sorted list, the
    loop reaches the first of them as [current] with the second as
    [next_table], and it takes the merge branch exactly when the three
    conditions hold: consecutive pages, equal column counts, equal ordered
    headers. In the merge branch the dict of [current] keeps its file name,
    page and headers and gets the rows of [current] followed by the rows of
    [next_table], and nothing is emitted; otherwise [current] is emitted
    with its own rows and no dict changes. In particular two fragments on
    pages 3 and 5 with the same headers come out as two tables, and so do
    two fragments on consecutive pages with headers [A,B] and [A,C]. *)
Theorem merge_iff_three_conditions :
  (∀ csv_results (i : nat) current next_table,
     let tables := sort_by_page (parse_csvs csv_results) in
     let st := merge_loop i (merge_init tables) in
     let conditions :=
       page next_table = page current + 1
       ∧ length (columns (df current)) = length (columns (df next_table))
       ∧ columns (df current) = columns (df next_table) in
     tables !! i = Some current → tables !! S i = Some next_table →
     idx st = i
     ∧ tables_data st !! i = Some current
     ∧ tables_data st !! S i = Some next_table
     ∧ (merge_step st = Some (merged_state st current next_table) ↔ conditions)
     ∧ (merge_step st = Some (emitted_state st current) ↔ ¬ conditions)
     ∧ (conditions →
        ∃ st' merged,
          merge_step st = Some st'
          ∧ idx st' = S i ∧ merged_results st' = merged_results st
          ∧ tables_data st' !! i = Some merged
          ∧ fname merged = fname current ∧ page merged = page current
          ∧ columns (df merged) = columns (df current)
          ∧ rows (df merged) = rows (df current) ++ rows (df next_table)
          ∧ tables_data st' !! S i = Some next_table)
     ∧ (¬ conditions →
        ∃ st',
          merge_step st = Some st'
          ∧ idx st' = S i ∧ tables_data st' = tables_data st
          ∧ merged_results st'
            = merged_results st ++ [(fname current, to_csv (df current))]))
  ∧ (∀ e3 e5 t3 t5,
       parse_entry e3 = Some t3 → parse_entry e5 = Some t5 →
       page t3 = 3 → page t5 = 5 → columns (df t3) = columns (df t5) →
       merge_cross_page_tables [e3; e5] = [emit t3; emit t5]
       ∧ merge_cross_page_tables [e5; e3] = [emit t3; emit t5])
  ∧ (∀ e e' t t',
       parse_entry e = Some t → parse_entry e' = Some t' →
       page t' = page t + 1 →
       columns (df t) = ["A"; "B"] → columns (df t') = ["A"; "C"] →
       merge_cross_page_tables [e; e'] = [emit t; emit t']
       ∧ merge_cross_page_tables [e'; e] = [emit t; emit t']).
Proof.
  split_and!.
  - intros csv_results i current next_table tables st conditions Hc Hn.
    assert (Hlen : (S i < length tables)%nat) by by eapply lookup_lt_Some.
    destruct (merge_loop_prefix i (merge_init tables)) as (Hi & _ & Hsame);
      [simpl; lia|].
    fold st in Hi, Hsame. simpl in Hi, Hsame.
    assert (Hc' : tables_data st !! i = Some current)
      by (rewrite Hsame by lia; done).
    assert (Hn' : tables_data st !! S i = Some next_table)
      by (rewrite Hsame by lia; done).
    split_and!; try done.
    + unfold merge_step. rewrite Hi, Hc', Hn'.
      subst conditions. rewrite <- should_merge_spec.
      destruct (should_merge current next_table); split; try done.
      intros Heq%(inj Some). symmetry in Heq. by apply merged_neq_emitted in Heq.
    + unfold merge_step. rewrite Hi, Hc', Hn'.
      subst conditions. rewrite <- should_merge_spec.
      destruct (should_merge current next_table); split; try done.
      intros Heq%(inj Some). by apply merged_neq_emitted in Heq.
    + intros Hcond. apply should_merge_spec in Hcond.
      exists (merged_state st current next_table),
        {| fname := fname current; page := page current;
           df := concat (df current) (df next_table) |}.
      assert (Hin : (i < length (tables_data st))%nat)
        by by eapply lookup_lt_Some.
      split_and!.
      * unfold merge_step. by rewrite Hi, Hc', Hn', Hcond.
      * simpl. by rewrite Hi.
      * done.
      * unfold merged_state. cbn [tables_data]. rewrite Hi.
        by apply list_lookup_insert_eq.
      * done.
      * done.
      * done.
      * done.
      * unfold merged_state. cbn [tables_data]. rewrite Hi.
        rewrite list_lookup_insert_ne by lia. done.
    + intros Hcond. exists (emitted_state st current).
      split_and!.
      * unfold merge_step. rewrite Hi, Hc', Hn'.
        destruct (should_merge current next_table) eqn:Hm; [|done].
        by apply should_merge_spec in Hm.
      * simpl. by rewrite Hi.
      * done.
      * done.
  - intros e3 e5 t3 t5 He3 He5 Hp3 Hp5 _.
    apply merge_pair_apart; [done|done|lia|].
    apply not_true_is_false. rewrite should_merge_spec. lia.
  - intros e e' t t' He He' Hp Hc Hc'.
    apply merge_pair_apart; [done|done|lia|].
    apply not_true_is_false. rewrite should_merge_spec, Hc, Hc'.
    intros (_ & _ & [=]).
Qed.


(** ** Inputs without a matching neighbour *)

(** No two neighbours of [l] pass the merge test. *)
Lemma merge_loop_apart l : ∀ pre out fuel,
  (length l ≤ fuel)%nat →
  (∀ (i : nat) current next_table,
     l !! i = Some current → l !! S i = Some next_table →
     should_merge current next_table = false) →
  merge_loop fuel {| tables_data := pre ++ l; idx := length pre;
                     merged_results := out |}
  = {| tables_data := pre ++ l; idx := length pre + length l;
       merged_results := out ++ (emit <$> l) |}.
Proof.
  induction l as [|current rest IH]; intros pre out fuel Hfuel Hapart.
  - simpl. rewrite Nat.add_0_r, !app_nil_r.
    destruct fuel as [|fuel]; simpl; [done|].
    unfold merge_step; simpl. by rewrite lookup_ge_None_2.
  - destruct fuel as [|fuel]; simpl in Hfuel; [lia|].
    simpl merge_loop. unfold merge_step. cbn [tables_data idx].
    rewrite list_lookup_middle by done.
    assert (Hstep :
      match (pre ++ current :: rest) !! S (length pre) with
      | Some next_table =>
          if should_merge current next_table
          then Some (merged_state (mkMergeState (pre ++ current :: rest)
                                     (length pre) out) current next_table)
          else Some (emitted_state (mkMergeState (pre ++ current :: rest)
                                      (length pre) out) current)
      | None => Some (emitted_state (mkMergeState (pre ++ current :: rest)
                                       (length pre) out) current)
      end
      = Some (emitted_state (mkMergeState (pre ++ current :: rest)
                               (length pre) out) current)).
    { destruct ((pre ++ current :: rest) !! S (length pre))
        as [next_table|] eqn:Hn; [|done].
      rewrite (Hapart O current next_table); [done|done|].
      rewrite lookup_app_r in Hn by lia.
      by replace (S (length pre) - length pre)%nat with 1%nat in Hn by lia. }
    rewrite Hstep. unfold emitted_state; cbn [tables_data idx merged_results].
    replace (pre ++ current :: rest) with ((pre ++ [current]) ++ rest)
      by (by rewrite <- app_assoc).
    replace (S (length pre)) with (length (pre ++ [current]))
      by (rewrite length_app; simpl; lia).
    rewrite IH.
    + f_equal.
      * rewrite length_app. simpl. lia.
      * by rewrite <- app_assoc.
    + lia.
    + intros i c n Hc Hn. by apply (Hapart (S i)).
Qed.

Lemma parse_entry_Some f content t :
  parse_entry (f, content) = Some t →
  fname t = f ∧ page_number f = Some (page t) ∧ read_csv content = Some (df t).
Proof.
  unfold parse_entry. intros Hp.
  destruct (page_number f) as [p|]; simpl in Hp; [|done].
  destruct (read_csv content) as [d|]; simpl in Hp; [|done].
  by simplify_eq.
Qed.

(** C5. When no two neighbours of the page-sorted list are on consecutive
    pages with the same headers, the loop merges nothing: the list of
    dicts is left as it was, and the output is the parsed entries, each
    under its own file name, in ascending page order with entries of one
    page in their input order; each of them is an entry of the input, with
    the page number of its file name and the frame read from its CSV
    text. *)
Theorem merge_without_matches csv_results :
  let tables := sort_by_page (parse_csvs csv_results) in
  (∀ (i : nat) current next_table,
     tables !! i = Some current → tables !! S i = Some next_table →
     ¬ (page next_table = page current + 1
        ∧ columns (df current) = columns (df next_table))) →
  merge_cross_page_tables csv_results
    = (λ t, (fname t, to_csv (df t))) <$> tables
  ∧ tables_data (merge_final csv_results) = tables
  ∧ tables ≡ₚ omap parse_entry csv_results
  ∧ StronglySorted (λ t u, page t ≤ page u) tables
  ∧ (∀ p, filter (λ t, page t = p) tables
          = filter (λ t, page t = p) (omap parse_entry csv_results))
  ∧ ∀ t, t ∈ tables →
      ∃ content, (fname t, content) ∈ csv_results
                 ∧ page_number (fname t) = Some (page t)
                 ∧ read_csv content = Some (df t).
Proof.
  intros tables Hapart.
  assert (Hfinal : merge_final csv_results
                   = mkMergeState tables (length tables) (emit <$> tables)).
  { unfold merge_final, merge_init. fold tables.
    apply (merge_loop_apart tables [] []); [done|].
    intros i c n Hc Hn. apply not_true_is_false.
    rewrite should_merge_headers. by apply Hapart with i. }
  split_and!.
  - destruct csv_results as [|entry csv_results]; [done|].
    unfold merge_cross_page_tables. by rewrite Hfinal.
  - by rewrite Hfinal.
  - apply sort_by_page_perm.
  - apply sort_by_page_sorted.
  - intros p. apply sort_by_page_stable.
  - intros t Ht. unfold tables in Ht. rewrite sort_by_page_perm in Ht.
    apply list_elem_of_omap in Ht as ([f content] & Hin & Hparse).
    apply parse_entry_Some in Hparse as (<- & Hpage & Hread).
    by exists content.
Qed.

(** ** Entries that cannot be parsed *)

Lemma parse_entry_None f content :
  page_number f = None ∨ read_csv content = None →
  parse_entry (f, content) = None.
Proof.
  unfold parse_entry. intros [-> | Hr]; [done|].
  destruct (page_number f); simpl; [|done]. by rewrite Hr.
Qed.

(** C6. An entry whose file name yields no page number, or whose CSV text
    the reader rejects, is skipped by the parsing loop: the function
    returns what it returns on the input without that entry. *)
Theorem unparseable_entry_dropped before after f content :
  page_number f = None ∨ read_csv content = None →
  parse_entry (f, content) = None
  ∧ parse_csvs (before ++ (f, content) :: after) = parse_csvs (before ++ after)
  ∧ merge_cross_page_tables (before ++ (f, content) :: after)
    = merge_cross_page_tables (before ++ after).
Proof.
  intros Hbad. pose proof (parse_entry_None _ _ Hbad) as Hnone.
  assert (Hparse : parse_csvs (before ++ (f, content) :: after)
                   = parse_csvs (before ++ after)).
  { unfold parse_csvs. rewrite !omap_app. f_equal.
    change (omap parse_entry ((f, content) :: after))
      with (match parse_entry (f, content) with
            | Some t => t :: omap parse_entry after
            | None => omap parse_entry after
            end).
    by rewrite Hnone. }
  split_and!; [done|done|].
  by rewrite !merge_cross_page_tables_emitted, Hparse.
Qed.

End merger_facts.

(** * Properties of the per-page extraction *)
Section utils_facts.
Import Utils.

Implicit Types (page : Page) (doc : list Page) (out : Output) (k n : nat).

(** ** Classification and zoom *)

Lemma has_images_spec page : has_images page = false ↔ get_images page = [].
Proof.
  unfold has_images. rewrite bool_decide_eq_false.
  destruct (get_images page); simpl; split; try done; lia.
Qed.

(** C3. A page with more than 100 characters of text and no image is read
    natively; with more than 100 characters and an image it goes to OCR
    as a hybrid page; with at most 100 characters it goes to OCR as a
    scanned page, whatever its images. The three cases cover every
    page and exclude one another. *)
Theorem classify_cases page :
  (100 < char_count page → get_images page = [] →
     use_ocr page = false ∧ mode_label page = "Native (Text)")
  ∧ (100 < char_count page → get_images page ≠ [] →
     use_ocr page = true ∧ mode_label page = "OCR (Hybrid)")
  ∧ (char_count page ≤ 100 →
     use_ocr page = true ∧ mode_label page = "OCR (Scanned)")
  ∧ ((100 < char_count page ∧ get_images page = [])
     ∨ (100 < char_count page ∧ get_images page ≠ [])
     ∨ char_count page ≤ 100).
Proof.
  unfold use_ocr, mode_label, classify.
  pose proof (has_images_spec page) as Himg.
  destruct (Z.ltb_spec 100 (char_count page)) as [Hlong|Hshort].
  - destruct (has_images page); simpl.
    + assert (Hne : get_images page ≠ []) by (intros Hnil; by apply Himg in Hnil).
      split_and!; [done|done|lia|by right; left].
    + assert (Hnil : get_images page = []) by by apply Himg.
      split_and!; [done|done|lia|by left].
  - assert (Hcase : (if false && negb (has_images page)
                     then (false, "Native (Text)")
                     else if false && has_images page
                          then (true, "OCR (Hybrid)")
                          else (true, "OCR (Scanned)"))
                    = (true, "OCR (Scanned)")) by done.
    rewrite Hcase. simpl.
    split_and!; [lia|lia|done|by right; right].
Qed.

Lemma float_two_neq_one : 2%float ≠ 1%float.
Proof.
  intros Heq. apply (f_equal (PrimFloat.eqb 1)) in Heq.
  vm_compute in Heq. discriminate.
Qed.

(** C4. The page is rendered at zoom 2.0 exactly when it goes to OCR and
    its default raster is less than 1500 pixels wide; in every other case
    (native mode, or a raster at least 1500 wide) the zoom is 1.0. *)
Theorem zoom_policy page :
  (zoom page = 2%float ↔ use_ocr page = true ∧ pixmap_width page < 1500)
  ∧ (¬ (use_ocr page = true ∧ pixmap_width page < 1500) → zoom page = 1%float)
  ∧ (use_ocr page = false → zoom page = 1%float)
  ∧ (1500 ≤ pixmap_width page → zoom page = 1%float).
Proof.
  unfold zoom.
  destruct (use_ocr page); destruct (Z.ltb_spec (pixmap_width page) 1500) as [Hlt|Hge];
    simpl.
  - split_and!; [done|tauto|done|lia].
  - split_and!; [|done|done|done].
    split; [intros Heq; symmetry in Heq; by apply float_two_neq_one in Heq | lia].
  - split_and!; [|done|done|done].
    split; [intros Heq; symmetry in Heq; by apply float_two_neq_one in Heq | by intros [? _]].
  - split_and!; [|done|done|done].
    split; [intros Heq; symmetry in Heq; by apply float_two_neq_one in Heq | lia].
Qed.


(** ** The loop over the pages *)

Lemma process_page_Some output_dir n page out out' :
  process_page output_dir n page out = Some out' →
  renders page
  ∧ file_pairs out' = file_pairs out ++ [(img_path output_dir n, json_path output_dir n)]
  ∧ json_files out' = json_files out ++ [(json_path output_dir n, words_data page)]
  ∧ stdout out' = stdout out ++ status_line n page :: ocr_log n page.
Proof.
  unfold process_page, renders. destruct (saves page (zoom page)); [|done].
  intros [= <-]. done.
Qed.

(** What a completed run has appended to its accumulators. *)
Lemma process_pages_Some output_dir doc : ∀ n out0 out,
  process_pages output_dir n doc out0 = Some out →
  file_pairs out
    = file_pairs out0
      ++ imap (λ k _, (img_path output_dir (n + k), json_path output_dir (n + k))) doc
  ∧ json_files out
    = json_files out0
      ++ imap (λ k page, (json_path output_dir (n + k), words_data page)) doc
  ∧ ∀ k page, doc !! k = Some page →
      ∀ line, line ∈ status_line (n + k) page :: ocr_log (n + k) page →
              line ∈ stdout out.
Proof.
  induction doc as [|page doc IH]; intros n out0 out Hrun; simpl in Hrun.
  - simplify_eq. simpl. by rewrite !app_nil_r.
  - destruct (process_page output_dir n page out0) as [out1|] eqn:Hpage;
      simpl in Hrun; [|done].
    apply process_page_Some in Hpage as (_ & Hfp & Hjf & Hso).
    assert (Hmono : ∀ line, line ∈ stdout out1 → line ∈ stdout out).
    { clear -Hrun. revert Hrun. generalize (S n). revert out1.
      induction doc as [|page doc IH]; intros out1 m Hrun line Hin;
        simpl in Hrun; [by simplify_eq|].
      destruct (process_page output_dir m page out1) as [out2|] eqn:Hpage;
        simpl in Hrun; [|done].
      apply process_page_Some in Hpage as (_ & _ & _ & Hso).
      eapply IH; [done|]. rewrite Hso. apply elem_of_app. by left. }
    destruct (IH _ _ _ Hrun) as (Hfp' & Hjf' & Hso').
    rewrite Hfp', Hjf', Hfp, Hjf, <- !app_assoc. simpl.
    rewrite Nat.add_0_r.
    split_and!.
    + do 2 f_equal. apply imap_ext. intros k ? _. simpl.
      by replace (n + S k)%nat with (S n + k)%nat by lia.
    + do 2 f_equal. apply imap_ext. intros k ? _. simpl.
      by replace (n + S k)%nat with (S n + k)%nat by lia.
    + intros [|k] page' Hk line Hline; simpl in Hk.
      * simplify_eq. rewrite Nat.add_0_r in Hline.
        apply Hmono. rewrite Hso. apply elem_of_app. by right.
      * apply (Hso' k page' Hk).
        by replace (S n + k)%nat with (n + S k)%nat by lia.
Qed.

(** The run completes exactly when every page renders: nothing else stops
    it. *)
Lemma process_pages_is_Some output_dir doc : ∀ n out0,
  is_Some (process_pages output_dir n doc out0) ↔ Forall renders doc.
Proof.
  induction doc as [|page doc IH]; intros n out0; simpl.
  - split; [by constructor | eauto].
  - rewrite Forall_cons. unfold process_page at 1. fold (renders page).
    unfold renders at 1. destruct (saves page (zoom page)); simpl.
    + rewrite IH. tauto.
    + split; [by intros [? ?] | by intros [? _]].
Qed.

(** C8. The run returns exactly when every page renders, and then
    [file_pairs] holds one pair for each page of the document, in page
    order: the image path and the JSON path of that page, whatever the
    mode of the page and whatever happened in its OCR block. *)
Theorem one_pair_per_page doc output_dir :
  (is_Some (process_pdf_to_data doc output_dir)
     ↔ Forall (λ page, saves page (zoom page) = true) doc)
  ∧ ∀ out, process_pdf_to_data doc output_dir = Some out →
      length (file_pairs out) = length doc
      ∧ ∀ k, (k < length doc)%nat →
          file_pairs out !! k = Some (img_path output_dir k, json_path output_dir k).
Proof.
  unfold process_pdf_to_data. split; [apply process_pages_is_Some|].
  intros out Hrun. apply process_pages_Some in Hrun as (Hfp & _ & _).
  simpl in Hfp. rewrite Hfp. split; [apply length_imap|].
  intros k Hk. rewrite list_lookup_imap.
  destruct (lookup_lt_is_Some_2 doc k Hk) as [page ->]. done.
Qed.

(** ** The OCR block *)

Lemma words_data_ocr_failure page e :
  use_ocr page = true → image_to_data page (zoom page) = inl e →
  extract page = ([], Some e).
Proof.
  unfold extract, ocr_words. by intros -> ->.
Qed.

(** C7. When the OCR block of a page raises at the engine call, the
    exception is caught: the page gets an empty token list and the error
    line is printed. This is no reason for the run to stop (it returns
    whenever every page renders), and in the returned output every page
    of the document, the failed one and the ones after it included, has
    its pair and its JSON file. *)
Theorem ocr_failure_isolated doc output_dir k page e :
  doc !! k = Some page → use_ocr page = true →
  image_to_data page (zoom page) = inl e →
  words_data page = []
  ∧ (is_Some (process_pdf_to_data doc output_dir)
       ↔ Forall (λ page, saves page (zoom page) = true) doc)
  ∧ ∀ out, process_pdf_to_data doc output_dir = Some out →
      json_files out !! k = Some (json_path output_dir k, [])
      ∧ ocr_error_line k e ∈ stdout out
      ∧ length (file_pairs out) = length doc
      ∧ ∀ j page', doc !! j = Some page' →
          file_pairs out !! j = Some (img_path output_dir j, json_path output_dir j)
          ∧ json_files out !! j = Some (json_path output_dir j, words_data page').
Proof.
  intros Hk Hocr Hfail.
  pose proof (words_data_ocr_failure _ _ Hocr Hfail) as Hex.
  assert (Hwd : words_data page = []) by (unfold words_data; by rewrite Hex).
  split_and!; [done|apply process_pages_is_Some|].
  intros out Hrun. unfold process_pdf_to_data in Hrun.
  apply process_pages_Some in Hrun as (Hfp & Hjf & Hso). simpl in Hfp, Hjf.
  split_and!.
  - rewrite Hjf, list_lookup_imap, Hk. simpl. by rewrite Hwd.
  - apply (Hso k page Hk). simpl. unfold ocr_log. rewrite Hex. simpl.
    apply list_elem_of_further, list_elem_of_singleton. done.
  - rewrite Hfp. apply length_imap.
  - intros j page' Hj. rewrite Hfp, Hjf, !list_lookup_imap, Hj. done.
Qed.

(** ** Native mode *)

(** C9. In the JSON file of a page read natively there is one token for
    each word of the text layer, in order, and the four coordinates of
    its box are the coordinates of the word multiplied by the zoom at
    which the page was rendered. *)
Theorem native_tokens_scaled doc output_dir out k page :
  process_pdf_to_data doc output_dir = Some out →
  doc !! k = Some page → use_ocr page = false →
  ∃ tokens,
    json_files out !! k = Some (json_path output_dir k, tokens)
    ∧ length tokens = length (get_text_words page)
    ∧ ∀ (i : nat) w, get_text_words page !! i = Some w →
        ∃ token,
          tokens !! i = Some token
          ∧ token !! "bbox"
            = Some (VList [VFloat (w0 w * zoom page); VFloat (w1 w * zoom page);
                           VFloat (w2 w * zoom page); VFloat (w3 w * zoom page)])
          ∧ token !! "text" = Some (VStr (w4 w)).
Proof.
  intros Hrun Hk Hnative. unfold process_pdf_to_data in Hrun.
  apply process_pages_Some in Hrun as (_ & Hjf & _). simpl in Hjf.
  exists (words_data page). split_and!.
  - by rewrite Hjf, list_lookup_imap, Hk.
  - unfold words_data, extract. rewrite Hnative. simpl.
    unfold native_words. by rewrite length_fmap.
  - intros i w Hw. exists (native_token (zoom page) w).
    unfold words_data, extract. rewrite Hnative. simpl.
    unfold native_words. rewrite list_lookup_fmap, Hw.
    split_and!; [done| |]; unfold native_token; by simplify_map_eq.
Qed.

End utils_facts.

(** * Properties of the metadata fill *)
Section fill_facts.
Import Fill.

Implicit Types (token : Token) (tokens : list Token) (key : string) (v : value).

Lemma lookup_setdefault key v token :
  setdefault key v token !! key = Some (default v (token !! key)).
Proof.
  unfold setdefault. destruct (token !! key) eqn:Hk; simpl; [done|].
  apply lookup_insert_eq.
Qed.

Lemma lookup_setdefault_ne key key' v token :
  key ≠ key' → setdefault key v token !! key' = token !! key'.
Proof.
  intros Hne. unfold setdefault. destruct (token !! key); [done|].
  by apply lookup_insert_ne.
Qed.

(** C10. The fill pass keeps the length and the order of the token list.
    In the token at index [idx] it sets [span_num] to [idx], [line_num] to
    0 and [block_num] to 0 where the key is absent, keeps the value of
    each of these keys where it is present, and leaves every other key
    (text, bbox, ...) as it was. *)
Theorem fill_missing_metadata_spec tokens (idx : nat) token :
  tokens !! idx = Some token →
  length (fill_missing_metadata tokens) = length tokens
  ∧ ∃ token',
      fill_missing_metadata tokens !! idx = Some token'
      ∧ (token !! "span_num" = None →
         token' !! "span_num" = Some (VInt (Z.of_nat idx)))
      ∧ (token !! "line_num" = None → token' !! "line_num" = Some (VInt 0))
      ∧ (token !! "block_num" = None → token' !! "block_num" = Some (VInt 0))
      ∧ (∀ key v, key ∈ ["span_num"; "line_num"; "block_num"] →
           token !! key = Some v → token' !! key = Some v)
      ∧ (∀ key, key ∉ ["span_num"; "line_num"; "block_num"] →
           token' !! key = token !! key).
Proof.
  intros Hidx. unfold fill_missing_metadata.
  split; [apply length_imap|].
  exists (fill_token idx token).
  split; [by rewrite list_lookup_imap, Hidx|].
  assert (Hspan : fill_token idx token !! "span_num"
                  = Some (default (VInt (Z.of_nat idx)) (token !! "span_num"))).
  { unfold fill_token. rewrite !lookup_setdefault_ne by done.
    apply lookup_setdefault. }
  assert (Hline : fill_token idx token !! "line_num"
                  = Some (default (VInt 0) (token !! "line_num"))).
  { unfold fill_token. rewrite lookup_setdefault_ne by done.
    rewrite lookup_setdefault. by rewrite lookup_setdefault_ne. }
  assert (Hblock : fill_token idx token !! "block_num"
                   = Some (default (VInt 0) (token !! "block_num"))).
  { unfold fill_token. rewrite lookup_setdefault.
    by rewrite !lookup_setdefault_ne. }
  split_and!.
  - intros Hnone. by rewrite Hspan, Hnone.
  - intros Hnone. by rewrite Hline, Hnone.
  - intros Hnone. by rewrite Hblock, Hnone.
  - intros key v Hkey Hv.
    apply elem_of_cons in Hkey as [->|Hkey]; [by rewrite Hspan, Hv|].
    apply elem_of_cons in Hkey as [->|Hkey]; [by rewrite Hline, Hv|].
    apply list_elem_of_singleton in Hkey as ->. by rewrite Hblock, Hv.
  - intros key Hkey. unfold fill_token.
    rewrite !lookup_setdefault_ne; [done|..];
      intros <-; apply Hkey; repeat constructor.
Qed.

End fill_facts.

(** * The sample inputs *)
Section samples.
Import App Utils Fill Samples PlainCsv.

(** C1. The code departs from the specification. On the two fragments of
    [Samples.two_fragments] (headers A,B; pages 3 and 4; 2 and 3 rows) the
    function returns a single table, but it is the page-4 fragment under
    its own file name with its own 3 rows: the 5-row table under the
    page-3 file name, which the loop has stored in the dict it left
    behind, is not returned. *)
Theorem merge_two_fragments_result :
  merge_cross_page_tables two_fragments
    = [("Page_04_Table_01.csv", page4_ab)]
  ∧ tables_data (merge_final two_fragments) !! 0%nat
    = Some {| fname := "Page_03_Table_01.csv"; page := 3;
              df := concat (df table3) (df table4) |}
  ∧ merge_cross_page_tables two_fragments
    ≠ [("Page_03_Table_01.csv", to_csv (concat (df table3) (df table4)))].
Proof.
  split_and!; [reflexivity|reflexivity|].
  vm_compute. intros [=].
Qed.

Lemma merge_iff_three_conditions_witness :
  (let st := merge_loop 0 (merge_init (sort_by_page (parse_csvs two_fragments))) in
   merge_step st = Some (merged_state st table3 table4)
   ∧ ∃ st' merged,
       merge_step st = Some st'
       ∧ merged_results st' = []
       ∧ tables_data st' !! 0%nat = Some merged
       ∧ fname merged = "Page_03_Table_01.csv"
       ∧ columns (df merged) = ["A"; "B"]
       ∧ rows (df merged)
         = [["1"; "2"]; ["3"; "4"]; ["5"; "6"]; ["7"; "8"]; ["9"; "10"]])
  ∧ merge_cross_page_tables [entry5; entry3] = [emit table3; emit table5]
  ∧ merge_cross_page_tables [entry3; entry4_ac] = [emit table3; emit table4_ac].
Proof.
  destruct (merge_iff_three_conditions (H := pandas)) as (Hstep & Hgap & Hhdr).
  split_and!.
  - destruct (Hstep two_fragments 0%nat table3 table4)
      as (_ & _ & _ & Hmerge & _ & Hrows & _); [reflexivity|reflexivity|].
    assert (Hcond : page table4 = page table3 + 1
                    ∧ length (columns (df table3)) = length (columns (df table4))
                    ∧ columns (df table3) = columns (df table4))
      by (split_and!; reflexivity).
    split; [by apply Hmerge|].
    destruct (Hrows Hcond)
      as (st' & merged & Hst' & _ & Hout & Hmerged & Hname & _ & Hcols & Hr & _).
    exists st', merged.
    split_and!; [exact Hst'|exact Hout|exact Hmerged|exact Hname|exact Hcols|exact Hr].
  - apply (Hgap entry3 entry5 table3 table5); reflexivity.
  - apply (Hhdr entry3 entry4_ac table3 table4_ac); reflexivity.
Defined.

Lemma merge_without_matches_witness :
  merge_cross_page_tables [entry5; entry_unnamed; entry3]
  = [("Page_03_Table_01.csv", page3_ab); ("Page_05_Table_01.csv", page5_ab)].
Proof.
  destruct (merge_without_matches (H := pandas) [entry5; entry_unnamed; entry3])
    as (Hout & _).
  - intros [|[|i]] current next_table Hc Hn; [|done|done].
    vm_compute in Hc, Hn. simplify_eq. vm_compute. lia.
  - rewrite Hout. reflexivity.
Defined.

Lemma unparseable_entry_dropped_witness :
  merge_cross_page_tables [entry5; entry_unnamed; entry3]
  = merge_cross_page_tables [entry5; entry3].
Proof.
  apply (unparseable_entry_dropped (H := pandas) [entry5] [entry3]
           "Table.csv" page4_ab).
  left. reflexivity.
Defined.

Lemma classify_cases_witness :
  (use_ocr native_page = false ∧ mode_label native_page = "Native (Text)")
  ∧ (use_ocr hybrid_page = true ∧ mode_label hybrid_page = "OCR (Hybrid)")
  ∧ (use_ocr scanned_page = true ∧ mode_label scanned_page = "OCR (Scanned)").
Proof.
  split; [|split].
  - apply (classify_cases native_page); [vm_compute|]; reflexivity.
  - apply (classify_cases hybrid_page); [vm_compute; reflexivity|discriminate].
  - apply (classify_cases scanned_page). vm_compute. discriminate.
Defined.

Lemma zoom_policy_witness :
  zoom scanned_page = 2%float ∧ zoom native_page = 1%float
  ∧ zoom hybrid_page = 1%float.
Proof.
  split_and!.
  - destruct (zoom_policy scanned_page) as (Hiff & _).
    apply Hiff. split; [reflexivity|vm_compute; reflexivity].
  - destruct (zoom_policy native_page) as (_ & _ & Hnative & _).
    apply Hnative. reflexivity.
  - destruct (zoom_policy hybrid_page) as (_ & _ & _ & Hwide).
    apply Hwide. vm_compute. discriminate.
Defined.


Lemma one_pair_per_page_witness :
  process_pdf_to_data document "/tmp/out" = Some document_output
  ∧ length (file_pairs document_output) = 3%nat
  ∧ file_pairs document_output !! 2%nat
    = Some ("/tmp/out/images/page_002.jpg", "/tmp/out/words/page_002_words.json").
Proof.
  destruct (one_pair_per_page document "/tmp/out") as (_ & Hpairs).
  destruct (Hpairs document_output) as (Hlen & Hnth); [reflexivity|].
  split_and!; [reflexivity|exact Hlen|].
  apply (Hnth 2%nat). simpl. lia.
Defined.

Lemma ocr_failure_isolated_witness :
  words_data scanned_page = []
  ∧ json_files document_output !! 1%nat
    = Some ("/tmp/out/words/page_001_words.json", [])
  ∧ ocr_error_line 1 "tesseract is not installed" ∈ stdout document_output
  ∧ length (file_pairs document_output) = 3%nat.
Proof.
  destruct (ocr_failure_isolated document "/tmp/out" 1 scanned_page
              "tesseract is not installed")
    as (Hempty & _ & Hrun); [reflexivity|reflexivity|reflexivity|].
  destruct (Hrun document_output) as (Hjson & Hlog & Hlen & _); [reflexivity|].
  split_and!; [exact Hempty|exact Hjson|exact Hlog|exact Hlen].
Defined.

Lemma native_tokens_scaled_witness :
  ∃ tokens,
    json_files document_output !! 0%nat
      = Some ("/tmp/out/words/page_000_words.json", tokens)
    ∧ length tokens = 1%nat
    ∧ ∃ token,
        tokens !! 0%nat = Some token
        ∧ token !! "bbox"
          = Some (VList [VFloat 10.5%float; VFloat 20%float;
                         VFloat 30.25%float; VFloat 40%float])
        ∧ token !! "text" = Some (VStr "Total").
Proof.
  destruct (native_tokens_scaled document "/tmp/out" document_output 0 native_page)
    as (tokens & Hfile & Hlen & Hwords); [reflexivity|reflexivity|reflexivity|].
  exists tokens. split_and!; [exact Hfile|exact Hlen|].
  destruct (Hwords 0%nat word_total) as (token & Htoken & Hbbox & Htext);
    [reflexivity|].
  exists token. split_and!; [exact Htoken|exact Hbbox|exact Htext].
Defined.

Lemma fill_missing_metadata_spec_witness :
  length (fill_missing_metadata [token_with_span; token_bare]) = 2%nat
  ∧ ∃ token',
      fill_missing_metadata [token_with_span; token_bare] !! 1%nat = Some token'
      ∧ token' !! "span_num" = Some (VInt 1)
      ∧ token' !! "line_num" = Some (VInt 0)
      ∧ token' !! "block_num" = Some (VInt 0)
      ∧ token' !! "text" = Some (VStr "Qty").
Proof.
  destruct (fill_missing_metadata_spec [token_with_span; token_bare] 1 token_bare)
    as (Hlen & token' & Hidx & Hspan & Hline & Hblock & _ & Hother);
    [reflexivity|].
  split; [exact Hlen|]. exists token'.
  split_and!; [exact Hidx|by apply Hspan|by apply Hline|by apply Hblock|].
  rewrite Hother; [reflexivity|].
  intros Hin. repeat (apply elem_of_cons in Hin as [[=]|Hin]).
  by apply elem_of_nil in Hin.
Defined.

End samples.

(** * Decimal formatting and parsing *)
Section decimal_facts.

Implicit Types (d : Decimal.uint) (s t : string) (a c : ascii) (n k : nat).

(** The characters of a printed number are decimal digits. *)
Lemma string_of_uint_digits d :
  Forall (λ a, Py.digit a ≠ None) (list_ascii_of_string (NilEmpty.string_of_uint d)).
Proof. induction d; simpl; constructor; done. Qed.

Lemma digits_string_of_uint d : ∀ k,
  Py.digits (Z.of_nat k) false (NilEmpty.string_of_uint d)
  = Some (Z.of_nat (Nat.of_uint_acc d k)).
Proof.
  assert (Hstep : ∀ k (m : nat),
    10 * Z.of_nat k + Z.of_nat m = Z.of_nat (m + Nat.tail_mul 10 k)).
  { intros k m. rewrite Nat.tail_mul_spec. lia. }
  induction d as [|d IH|d IH|d IH|d IH|d IH|d IH|d IH|d IH|d IH|d IH];
    intros k; [done|..];
    cbn [NilEmpty.string_of_uint Py.digits Nat.of_uint_acc].
  - change (Py.digit "0") with (Some (Z.of_nat 0)). cbv iota. by rewrite Hstep, IH.
  - change (Py.digit "1") with (Some (Z.of_nat 1)). cbv iota. by rewrite Hstep, IH.
  - change (Py.digit "2") with (Some (Z.of_nat 2)). cbv iota. by rewrite Hstep, IH.
  - change (Py.digit "3") with (Some (Z.of_nat 3)). cbv iota. by rewrite Hstep, IH.
  - change (Py.digit "4") with (Some (Z.of_nat 4)). cbv iota. by rewrite Hstep, IH.
  - change (Py.digit "5") with (Some (Z.of_nat 5)). cbv iota. by rewrite Hstep, IH.
  - change (Py.digit "6") with (Some (Z.of_nat 6)). cbv iota. by rewrite Hstep, IH.
  - change (Py.digit "7") with (Some (Z.of_nat 7)). cbv iota. by rewrite Hstep, IH.
  - change (Py.digit "8") with (Some (Z.of_nat 8)). cbv iota. by rewrite Hstep, IH.
  - change (Py.digit "9") with (Some (Z.of_nat 9)). cbv iota. by rewrite Hstep, IH.
Qed.

Lemma digit_not_int_space a : Py.digit a ≠ None → Py.int_space a = false.
Proof.
  unfold Py.digit, Py.int_space. intros Hd.
  destruct (48 <=? nat_of_ascii a)%nat eqn:Hlo; [|done].
  destruct (nat_of_ascii a <=? 57)%nat eqn:Hhi; [|done].
  apply Nat.leb_le in Hlo, Hhi.
  repeat (apply orb_false_iff; split).
  - apply andb_false_iff; right; apply Nat.leb_gt; lia.
  - apply Nat.eqb_neq; lia.
  - apply Nat.eqb_neq; lia.
  - apply Nat.eqb_neq; lia.
Qed.

(** Stripping leaves a string without characters to strip alone. *)
Lemma strip_by_none (sp : ascii → bool) s :
  Forall (λ a, sp a = false) (list_ascii_of_string s) → Py.strip_by sp s = s.
Proof.
  intros Hs. unfold Py.strip_by.
  assert (Hl : Py.lstrip_by sp s = s).
  { destruct s as [|a s]; [done|]. simpl in *. by rewrite (Forall_inv Hs). }
  rewrite Hl. clear Hl.
  induction s as [|a s IH]; [done|]. simpl in *.
  apply Forall_cons in Hs as [Ha Hs]. rewrite (IH Hs), Ha. by destruct s.
Qed.

Lemma int_string_of_uint d :
  d ≠ Decimal.Nil →
  Py.int (NilEmpty.string_of_uint d) = Some (Z.of_nat (Nat.of_uint d)).
Proof.
  intros Hd. unfold Py.int. rewrite strip_by_none.
  - destruct d as [|d|d|d|d|d|d|d|d|d|d]; [done|..]; cbn [NilEmpty.string_of_uint].
    + exact (digits_string_of_uint d 0).
    + exact (digits_string_of_uint d 1).
    + exact (digits_string_of_uint d 2).
    + exact (digits_string_of_uint d 3).
    + exact (digits_string_of_uint d 4).
    + exact (digits_string_of_uint d 5).
    + exact (digits_string_of_uint d 6).
    + exact (digits_string_of_uint d 7).
    + exact (digits_string_of_uint d 8).
    + exact (digits_string_of_uint d 9).
  - eapply Forall_impl; [apply string_of_uint_digits|]. apply digit_not_int_space.
Qed.

(** Zero padding as leading zero digits. *)
Lemma zero_pad_string_of_uint k d :
  String.append (string_of_list_ascii (repeat "0"%char k)) (NilEmpty.string_of_uint d)
  = NilEmpty.string_of_uint (Nat.iter k Decimal.D0 d).
Proof.
  induction k as [|k IH]; [done|].
  change (Nat.iter (S k) Decimal.D0 d) with (Decimal.D0 (Nat.iter k Decimal.D0 d)).
  cbn [NilEmpty.string_of_uint]. rewrite <- IH. reflexivity.
Qed.

Lemma of_uint_leading_zeros k d :
  Nat.of_uint (Nat.iter k Decimal.D0 d) = Nat.of_uint d.
Proof.
  induction k as [|k IH]; [done|].
  change (Nat.iter (S k) Decimal.D0 d) with (Decimal.D0 (Nat.iter k Decimal.D0 d)).
  exact IH.
Qed.

(** A zero-padded number reads back as the number. *)
Lemma int_zero_padded k n :
  Py.int (String.append (string_of_list_ascii (repeat "0"%char k))
                        (NilZero.string_of_uint (Nat.to_uint n)))
  = Some (Z.of_nat n).
Proof.
  set (d := match Nat.to_uint n with Decimal.Nil => Decimal.D0 Decimal.Nil | d => d end).
  assert (Hs : NilZero.string_of_uint (Nat.to_uint n) = NilEmpty.string_of_uint d)
    by (subst d; by destruct (Nat.to_uint n)).
  assert (Hv : Nat.of_uint d = n).
  { pose proof (DecimalNat.Unsigned.of_to n) as Hn. subst d.
    by destruct (Nat.to_uint n). }
  assert (Hd : d ≠ Decimal.Nil) by (subst d; by destruct (Nat.to_uint n)).
  rewrite Hs, zero_pad_string_of_uint, int_string_of_uint.
  - by rewrite of_uint_leading_zeros, Hv.
  - destruct k; simpl; done.
Qed.

Lemma zero_padded_digits k n :
  Forall (λ a, Py.digit a ≠ None)
    (list_ascii_of_string
       (String.append (string_of_list_ascii (repeat "0"%char k))
                      (NilZero.string_of_uint (Nat.to_uint n)))).
Proof.
  set (d := match Nat.to_uint n with Decimal.Nil => Decimal.D0 Decimal.Nil | d => d end).
  assert (Hs : NilZero.string_of_uint (Nat.to_uint n) = NilEmpty.string_of_uint d)
    by (subst d; by destruct (Nat.to_uint n)).
  rewrite Hs, zero_pad_string_of_uint. apply string_of_uint_digits.
Qed.

End decimal_facts.

(** * File names *)
Section filename_facts.

Implicit Types (s t u : string) (a c : ascii) (i k n : nat).

Lemma append_String a s t : String a s +:+ t = String a (s +:+ t).
Proof. reflexivity. Qed.

Lemma append_Empty t : EmptyString +:+ t = t.
Proof. reflexivity. Qed.

Lemma append_assoc s t u : (s +:+ t) +:+ u = s +:+ (t +:+ u).
Proof.
  induction s as [|a s IH]; [done|]. by rewrite !append_String, IH.
Qed.

Lemma append_empty_r s : s +:+ EmptyString = s.
Proof.
  induction s as [|a s IH]; [done|]. by rewrite append_String, IH.
Qed.

Lemma list_ascii_of_append s t :
  list_ascii_of_string (s +:+ t) = list_ascii_of_string s ++ list_ascii_of_string t.
Proof.
  induction s as [|a s IH]; [done|]. rewrite append_String. simpl. by rewrite IH.
Qed.

Lemma append_inv_tail s1 s2 t : s1 +:+ t = s2 +:+ t → s1 = s2.
Proof.
  intros Heq. apply (f_equal list_ascii_of_string) in Heq.
  rewrite !list_ascii_of_append in Heq. apply app_inv_tail in Heq.
  apply (f_equal string_of_list_ascii) in Heq.
  by rewrite !string_of_list_ascii_of_string in Heq.
Qed.

(** [replace] copies a stretch without the first character of [old]. *)
Lemma replace_csv_skip s t :
  Forall (λ a, a ≠ "."%char) (list_ascii_of_string s) →
  Py.replace_go ".csv" EmptyString 0 (s +:+ t)
  = s +:+ Py.replace_go ".csv" EmptyString 0 t.
Proof.
  induction s as [|a s IH]; intros Hs; [done|].
  simpl in Hs. apply Forall_cons in Hs as [Ha Hs].
  rewrite !append_String. cbn [Py.replace_go Py.prefix].
  destruct (Ascii.eqb_spec "." a) as [Heq|_]; [by destruct Ha|].
  by rewrite IH.
Qed.

(** [split] cuts at the first separator. *)
Lemma split_app sep s t :
  Forall (λ a, a ≠ sep) (list_ascii_of_string s) →
  Py.split sep (s +:+ String sep t) = s :: Py.split sep t.
Proof.
  induction s as [|a s IH]; intros Hs.
  - rewrite append_Empty. simpl. by rewrite Ascii.eqb_refl.
  - simpl in Hs. apply Forall_cons in Hs as [Ha Hs].
    rewrite append_String. cbn [Py.split].
    destruct (Ascii.eqb_spec a sep) as [->|_]; [done|].
    by rewrite IH.
Qed.

Lemma split_none sep s :
  Forall (λ a, a ≠ sep) (list_ascii_of_string s) → Py.split sep s = [s].
Proof.
  induction s as [|a s IH]; intros Hs; [done|].
  simpl in Hs. apply Forall_cons in Hs as [Ha Hs]. simpl.
  destruct (Ascii.eqb_spec a sep) as [->|_]; [done|].
  by rewrite IH.
Qed.

Lemma digits_avoid c s :
  Py.digit c = None →
  Forall (λ a, Py.digit a ≠ None) (list_ascii_of_string s) →
  Forall (λ a, a ≠ c) (list_ascii_of_string s).
Proof.
  intros Hc Hs. eapply Forall_impl; [exact Hs|]. intros a Ha ->. done.
Qed.

Lemma fmt_02d_digits n :
  Forall (λ a, Py.digit a ≠ None) (list_ascii_of_string (Main.fmt_02d n)).
Proof. apply zero_padded_digits. Qed.

Lemma int_fmt_02d n : Py.int (Main.fmt_02d n) = Some (Z.of_nat n).
Proof. apply int_zero_padded. Qed.

Lemma int_fmt_03d n : Py.int (Utils.fmt_03d n) = Some (Z.of_nat n).
Proof. apply int_zero_padded. Qed.

(** The parts of a generated file name. *)
Lemma table_filename_parts i k :
  Py.split "_" (Py.replace ".csv" EmptyString (Main.table_filename i k))
  = ["Page"; Main.fmt_02d (i + 1); "Table"; Main.fmt_02d (k + 1)].
Proof.
  pose proof (fmt_02d_digits (i + 1)) as Hi.
  pose proof (fmt_02d_digits (k + 1)) as Hk.
  set (fi := Main.fmt_02d (i + 1)) in *. set (fk := Main.fmt_02d (k + 1)) in *.
  assert (Hname : Main.table_filename i k
                  = ("Page_" +:+ fi +:+ "_Table_" +:+ fk) +:+ ".csv").
  { unfold Main.table_filename. fold fi fk.
    cbn [String.concat]. by rewrite !append_assoc. }
  assert (Hdot : Forall (λ a, a ≠ "."%char)
                   (list_ascii_of_string ("Page_" +:+ fi +:+ "_Table_" +:+ fk))).
  { rewrite !list_ascii_of_append. repeat apply Forall_app_2.
    - repeat constructor; done.
    - by apply digits_avoid.
    - repeat constructor; done.
    - by apply digits_avoid. }
  unfold Py.replace. rewrite Hname, replace_csv_skip by done.
  change (Py.replace_go ".csv" EmptyString 0 ".csv") with EmptyString.
  rewrite append_empty_r.
  change ("Page_" +:+ fi +:+ "_Table_" +:+ fk)
    with ("Page" +:+ String "_" (fi +:+ String "_" ("Table" +:+ String "_" fk))).
  rewrite split_app by (repeat constructor; done).
  rewrite split_app by (by apply digits_avoid).
  rewrite split_app by (repeat constructor; done).
  rewrite split_none by (by apply digits_avoid).
  done.
Qed.

(** X1. Every file name that [main] gives to a table reads back, in the
    merger, as the 1-based number of its page, whatever the number of digits
    of the page and table numbers. *)
Theorem table_filename_page_number i k :
  App.page_number (Main.table_filename i k) = Some (Z.of_nat i + 1).
Proof.
  unfold App.page_number. rewrite table_filename_parts. simpl.
  rewrite int_fmt_02d. f_equal. lia.
Qed.

Lemma fmt_03d_inj n1 n2 : Utils.fmt_03d n1 = Utils.fmt_03d n2 → n1 = n2.
Proof.
  intros Heq. apply (f_equal Py.int) in Heq.
  rewrite !int_fmt_03d in Heq. injection Heq. lia.
Qed.

Lemma path_join_relative s :
  ∃ t, ∀ u, Py.prefix "/" u = false → Utils.path_join s u = t +:+ u.
Proof.
  unfold Utils.path_join.
  destruct (String.rev s) as [|c r].
  - exists EmptyString. by intros u ->.
  - destruct (Ascii.eqb c "/").
    + exists s. by intros u ->.
    + exists (s +:+ "/"). intros u ->. by rewrite append_assoc.
Qed.

Lemma img_path_inj output_dir k1 k2 :
  Utils.img_path output_dir k1 = Utils.img_path output_dir k2 → k1 = k2.
Proof.
  unfold Utils.img_path.
  destruct (path_join_relative (Utils.path_join output_dir "images")) as [p Hp].
  rewrite !Hp by done. intros Heq%(inj _)%(inj _).
  by apply append_inv_tail, fmt_03d_inj in Heq.
Qed.

Lemma json_path_inj output_dir k1 k2 :
  Utils.json_path output_dir k1 = Utils.json_path output_dir k2 → k1 = k2.
Proof.
  unfold Utils.json_path.
  destruct (path_join_relative (Utils.path_join output_dir "words")) as [p Hp].
  rewrite !Hp by done. intros Heq%(inj _)%(inj _).
  by apply append_inv_tail, fmt_03d_inj in Heq.
Qed.

(** X2. Two different pages of a document never share an image file or a
    JSON file, for every output directory and however many digits the page
    numbers have. *)
Theorem page_paths_distinct output_dir k1 k2 :
  k1 ≠ k2 →
  Utils.img_path output_dir k1 ≠ Utils.img_path output_dir k2
  ∧ Utils.json_path output_dir k1 ≠ Utils.json_path output_dir k2.
Proof.
  intros Hne. split; intros Heq; apply Hne.
  - by apply img_path_inj in Heq.
  - by apply json_path_inj in Heq.
Qed.

(** A generated file name determines its page and its table. *)
Lemma table_filename_inj i1 k1 i2 k2 :
  Main.table_filename i1 k1 = Main.table_filename i2 k2 → i1 = i2 ∧ k1 = k2.
Proof.
  intros Heq.
  apply (f_equal (λ f, Py.split "_" (Py.replace ".csv" EmptyString f))) in Heq.
  rewrite !table_filename_parts in Heq. injection Heq as Hi Hk.
  apply (f_equal Py.int) in Hi, Hk. rewrite !int_fmt_02d in Hi, Hk.
  injection Hi as Hi. injection Hk as Hk. lia.
Qed.

(** The blanks of [int()] and of [str.strip()] differ: a file separator
    around the page number makes the name unparseable, a no-break space
    does not; [strip] removes both. *)
Lemma blanks_of_int_and_strip :
  let fs := String (ascii_of_nat 28) EmptyString in
  let us := String (ascii_of_nat 31) EmptyString in
  let nbsp := String (ascii_of_nat 160) EmptyString in
  Py.int (fs +:+ "8" +:+ us) = None
  ∧ App.page_number ("Page_" +:+ fs +:+ "8" +:+ us +:+ "_T.csv") = None
  ∧ Py.int (nbsp +:+ "8") = Some 8
  ∧ App.page_number ("Page_" +:+ nbsp +:+ "8_T.csv") = Some 8
  ∧ Py.strip (nbsp +:+ "Total" +:+ fs) = "Total"
  ∧ Py.strip nbsp = EmptyString.
Proof. repeat split; reflexivity. Qed.

End filename_facts.

(** * More on the merger *)
Section merger_more.
Import App.
Context `{Pandas}.

Implicit Types (t current next_table : Table) (l tables : list Table).

Lemma emitted_sublist l : emitted l `sublist_of` (emit <$> l).
Proof.
  induction l as [|current rest IH]; [done|].
  cbn [emitted fmap list_fmap] in *.
  destruct rest as [|next_table rest'].
  - by apply sublist_skip.
  - destruct (should_merge current next_table).
    + by apply sublist_cons.
    + by apply sublist_skip.
Qed.

Lemma parse_csvs_length (csv_results : list (string * string)) :
  (length (parse_csvs csv_results) ≤ length csv_results)%nat.
Proof.
  unfold parse_csvs. induction csv_results as [|entry csv_results IH]; [done|].
  cbn [omap list_omap]. destruct (parse_entry entry); simpl; lia.
Qed.

(** X3. The merger invents no file name and returns no more entries than
    it was given: the file names of its output are a sublist of the file
    names of the parsed entries in page order. *)
Theorem merge_output_names (csv_results : list (string * string)) :
  (merge_cross_page_tables csv_results).*1
    `sublist_of` (fname <$> sort_by_page (parse_csvs csv_results))
  ∧ (length (merge_cross_page_tables csv_results) ≤ length csv_results)%nat.
Proof.
  rewrite merge_cross_page_tables_emitted. split.
  - assert (Hnames : fname <$> sort_by_page (parse_csvs csv_results)
                     = (emit <$> sort_by_page (parse_csvs csv_results)).*1)
      by (by rewrite <- list_fmap_compose).
    rewrite Hnames. apply fmap_sublist, emitted_sublist.
  - etransitivity; [apply sublist_length, emitted_sublist|].
    rewrite length_fmap, (Permutation_length (sort_by_page_perm _)).
    apply parse_csvs_length.
Qed.

(** ** Order of the input *)

Lemma filter_page_length (p : Z) l :
  NoDup (page <$> l) → (length (filter (λ u, page u = p) l) ≤ 1)%nat.
Proof.
  induction l as [|t l IH]; [simpl; lia|].
  rewrite fmap_cons, NoDup_cons. intros [Hnotin Hnodup].
  rewrite filter_cons. destruct (decide (page t = p)) as [Hp|Hp]; [|by apply IH].
  assert (Hnil : filter (λ u, page u = p) l = []).
  { destruct (filter (λ u, page u = p) l) as [|u ?] eqn:Hf; [done|].
    assert (Hu : u ∈ filter (λ u, page u = p) l)
      by (rewrite Hf; apply list_elem_of_here).
    apply list_elem_of_filter in Hu as [Hup Hu].
    destruct Hnotin. rewrite Hp, <- Hup. by apply list_elem_of_fmap_2. }
  by rewrite Hnil.
Qed.

Lemma filter_page_perm (p : Z) l1 l2 :
  NoDup (page <$> l1) → l1 ≡ₚ l2 →
  filter (λ u, page u = p) l1 = filter (λ u, page u = p) l2.
Proof.
  intros Hnodup Hperm.
  pose proof (filter_page_length p l1 Hnodup) as Hlen.
  assert (Hfp : filter (λ u, page u = p) l1 ≡ₚ filter (λ u, page u = p) l2)
    by by rewrite Hperm.
  destruct (filter (λ u, page u = p) l1) as [|t [|t' l]]; simpl in Hlen.
  - by apply Permutation_nil_l in Hfp.
  - by apply Permutation_singleton_l in Hfp.
  - lia.
Qed.

(** X4. When no two parsed entries share a page number, the order of the
    input list has no effect on the output. *)
Theorem merge_order_irrelevant (csv1 csv2 : list (string * string)) :
  csv1 ≡ₚ csv2 →
  NoDup (page <$> parse_csvs csv1) →
  merge_cross_page_tables csv1 = merge_cross_page_tables csv2.
Proof.
  intros Hperm Hnodup. rewrite !merge_cross_page_tables_emitted. f_equal.
  assert (Hparse : parse_csvs csv1 ≡ₚ parse_csvs csv2)
    by (unfold parse_csvs; by rewrite Hperm).
  apply stable_sorted_unique; [apply sort_by_page_sorted..|].
  intros p. rewrite !sort_by_page_stable. by apply filter_page_perm.
Qed.

(** Sorting a list that is in page order returns it. *)
Lemma sort_by_page_sorted_id l :
  StronglySorted by_page l → sort_by_page l = l.
Proof.
  intros Hsorted. apply stable_sorted_unique; [apply sort_by_page_sorted|done|].
  intros p. apply sort_by_page_stable.
Qed.

End merger_more.

(** * More on the OCR block *)
Section ocr_facts.
Import Utils.

Implicit Types (page : Page) (data : OcrData) (token : Token)
  (acc : list Token) (indices : list nat).

(** What holds of the tokens given to the loop and of every token it can
    build holds of the tokens it returns. *)
Lemma ocr_loop_Forall (P : Token → Prop) data indices : ∀ acc,
  Forall P acc →
  (∀ (i : nat) t x y w h,
     d_text data !! i = Some t → d_left data !! i = Some x →
     d_top data !! i = Some y → d_width data !! i = Some w →
     d_height data !! i = Some h → Py.strip t ≠ EmptyString →
     P (ocr_token (Py.strip t) x y w h)) →
  Forall P (ocr_loop data indices acc).1.
Proof.
  induction indices as [|i indices IH]; intros acc Hacc Hbuild; simpl; [done|].
  destruct (d_text data !! i) as [t|] eqn:Ht; [|done].
  case_bool_decide as Hblank; [by apply IH|].
  destruct (d_left data !! i) as [x|] eqn:Hx; [|done].
  destruct (d_top data !! i) as [y|] eqn:Hy; [|done].
  destruct (d_width data !! i) as [w|] eqn:Hw; [|done].
  destruct (d_height data !! i) as [h|] eqn:Hh; [|done].
  apply IH; [|done]. apply Forall_app. split; [done|].
  constructor; [|done]. by eapply Hbuild.
Qed.

(** X5. Every token of a page read by OCR comes from one row of the dict of
    the engine: its text is the stripped text of the row and is not empty,
    and its box is [left, top, left + width, top + height] of that row. *)
Theorem ocr_tokens_shape page token :
  use_ocr page = true → token ∈ words_data page →
  ∃ data (i : nat) t x y w h,
    image_to_data page (zoom page) = inr data
    ∧ d_text data !! i = Some t ∧ d_left data !! i = Some x
    ∧ d_top data !! i = Some y ∧ d_width data !! i = Some w
    ∧ d_height data !! i = Some h
    ∧ Py.strip t ≠ EmptyString
    ∧ token = {[ "text" := VStr (Py.strip t);
                 "bbox" := VList [VInt x; VInt y; VInt (x + w); VInt (y + h)] ]}.
Proof.
  intros Hocr Hin. unfold words_data, extract, ocr_words in Hin.
  rewrite Hocr in Hin.
  destruct (image_to_data page (zoom page)) as [e|data] eqn:Hdata;
    [by apply elem_of_nil in Hin|].
  revert token Hin. apply Forall_forall.
  apply ocr_loop_Forall; [done|].
  intros i t x y w h Ht Hx Hy Hw Hh Hblank.
  by exists data, i, t, x, y, w, h.
Qed.

(** The loop over a range of complete rows. *)
Lemma ocr_loop_complete data (n : nat) : ∀ (k : nat) acc,
  (k + n)%nat = length (d_text data) →
  length (d_left data) = length (d_text data) →
  length (d_top data) = length (d_text data) →
  length (d_width data) = length (d_text data) →
  length (d_height data) = length (d_text data) →
  (ocr_loop data (seq k n) acc).2 = None
  ∧ (λ token, token !! "text") <$> (ocr_loop data (seq k n) acc).1
    = ((λ token, token !! "text") <$> acc)
      ++ ((λ t, Some (VStr t))
            <$> filter (λ t, t ≠ EmptyString) (Py.strip <$> drop k (d_text data))).
Proof.
  induction n as [|n IH]; intros k acc Hk Hleft Htop Hwidth Hheight.
  - simpl. rewrite drop_ge by lia. simpl. by rewrite app_nil_r.
  - cbn [seq ocr_loop].
    destruct (lookup_lt_is_Some_2 (d_text data) k) as [t Ht]; [lia|].
    destruct (lookup_lt_is_Some_2 (d_left data) k) as [x Hx]; [lia|].
    destruct (lookup_lt_is_Some_2 (d_top data) k) as [y Hy]; [lia|].
    destruct (lookup_lt_is_Some_2 (d_width data) k) as [w Hw]; [lia|].
    destruct (lookup_lt_is_Some_2 (d_height data) k) as [h Hh]; [lia|].
    rewrite Ht, Hx, Hy, Hw, Hh.
    rewrite (drop_S _ _ _ Ht), fmap_cons, filter_cons.
    destruct (IH (S k) acc) as [Herr Htexts]; [lia|done..|].
    destruct (IH (S k) (acc ++ [ocr_token (Py.strip t) x y w h]))
      as [Herr' Htexts']; [lia|done..|].
    case_bool_decide as Hblank.
    + rewrite decide_False by (by intros ?).
      by split.
    + rewrite decide_True by done.
      split; [done|]. rewrite Htexts', fmap_app, <- app_assoc.
      by f_equal.
Qed.

(** X6. When the five lists of the dict of the engine have the same
    length, the OCR block raises nothing and prints no error line, and the
    texts of its tokens are the stripped texts of the rows that are not
    blank, in the order of the engine. *)
Theorem ocr_words_complete page data (page_num : nat) :
  use_ocr page = true → image_to_data page (zoom page) = inr data →
  length (d_left data) = length (d_text data) →
  length (d_top data) = length (d_text data) →
  length (d_width data) = length (d_text data) →
  length (d_height data) = length (d_text data) →
  ocr_log page_num page = []
  ∧ (λ token, token !! "text") <$> words_data page
    = (λ t, Some (VStr t))
        <$> filter (λ t, t ≠ EmptyString) (Py.strip <$> d_text data).
Proof.
  intros Hocr Hdata Hleft Htop Hwidth Hheight.
  destruct (ocr_loop_complete data (length (d_text data)) 0 [])
    as [Herr Htexts]; [done..|].
  unfold ocr_log, words_data, extract, ocr_words. rewrite Hocr, Hdata.
  rewrite Herr. split; [done|]. by rewrite Htexts.
Qed.

End ocr_facts.

(** * More on the metadata fill *)
Section fill_more.
Import Fill Utils.

Implicit Types (token : Token) (tokens : list Token) (key : string) (v : value).

Lemma setdefault_present key v token :
  is_Some (token !! key) → setdefault key v token = token.
Proof. intros [v' Hv]. unfold setdefault. by rewrite Hv. Qed.

Lemma setdefault_absent key v token :
  token !! key = None → setdefault key v token = <[key := v]> token.
Proof. intros Hv. unfold setdefault. by rewrite Hv. Qed.

Lemma fill_token_keys (idx : nat) token key :
  key ∈ ["span_num"; "line_num"; "block_num"] →
  is_Some (fill_token idx token !! key).
Proof.
  intros Hkey. unfold fill_token.
  apply elem_of_cons in Hkey as [->|Hkey].
  { rewrite !lookup_setdefault_ne by done. rewrite lookup_setdefault. eauto. }
  apply elem_of_cons in Hkey as [->|Hkey].
  { rewrite lookup_setdefault_ne by done. rewrite lookup_setdefault. eauto. }
  apply list_elem_of_singleton in Hkey as ->.
  rewrite lookup_setdefault. eauto.
Qed.

(** X7. The fill pass is idempotent: running it on its own result changes
    nothing. *)
Theorem fill_missing_metadata_idempotent tokens :
  fill_missing_metadata (fill_missing_metadata tokens) = fill_missing_metadata tokens.
Proof.
  unfold fill_missing_metadata. apply list_eq. intros idx.
  rewrite !list_lookup_imap. destruct (tokens !! idx) as [token|]; [|done].
  simpl. f_equal. unfold fill_token at 1.
  rewrite (setdefault_present "span_num")
    by (apply fill_token_keys; repeat constructor).
  rewrite (setdefault_present "line_num")
    by (apply fill_token_keys; repeat constructor).
  apply setdefault_present, fill_token_keys. repeat constructor.
Qed.

(** The keys of the tokens written by [process_pdf_to_data]. *)
Lemma words_data_keys page token :
  token ∈ words_data page → dom token = {[ "bbox"; "text" ]}.
Proof.
  unfold words_data, extract. destruct (use_ocr page) eqn:Hocr.
  - intros Hin. destruct (ocr_tokens_shape page token Hocr) as
      (data & i & t & x & y & w & h & _ & _ & _ & _ & _ & _ & _ & ->).
    { unfold words_data, extract. by rewrite Hocr. }
    rewrite dom_insert_L, dom_singleton_L. apply (comm_L (∪)).
  - simpl. unfold native_words. intros (w & -> & _)%list_elem_of_fmap.
    unfold native_token. by rewrite dom_insert_L, dom_singleton_L.
Qed.

(** X8. On the tokens that [process_pdf_to_data] wrote for a page, which
    carry exactly the keys [bbox] and [text], the fill pass adds all three
    keys: the token at index [idx] gets [span_num = idx], [line_num = 0]
    and [block_num = 0]. *)
Theorem fill_written_tokens page (idx : nat) token :
  words_data page !! idx = Some token →
  dom token = {[ "bbox"; "text" ]}
  ∧ fill_missing_metadata (words_data page) !! idx
    = Some (<["block_num" := VInt 0]>
              (<["line_num" := VInt 0]>
                 (<["span_num" := VInt (Z.of_nat idx)]> token))).
Proof.
  intros Hidx.
  assert (Hdom : dom token = {[ "bbox"; "text" ]}).
  { apply (words_data_keys page). by eapply list_elem_of_lookup_2. }
  split; [done|].
  assert (Hkey : ∀ key, key ≠ "bbox" → key ≠ "text" → token !! key = None).
  { intros key Hbbox Htext. apply not_elem_of_dom.
    rewrite Hdom, elem_of_union, !elem_of_singleton. tauto. }
  unfold fill_missing_metadata. rewrite list_lookup_imap, Hidx. simpl.
  f_equal. unfold fill_token.
  rewrite (setdefault_absent "span_num") by (by apply Hkey).
  rewrite (setdefault_absent "line_num")
    by (rewrite lookup_insert_ne by done; by apply Hkey).
  rewrite (setdefault_absent "block_num"); [done|].
  rewrite !lookup_insert_ne by done. by apply Hkey.
Qed.

End fill_more.

(** * From extraction to merging *)
Section main_facts.
Import App Utils Main.
Context `{Pandas}.

Implicit Types (pipe : Pipeline) (out : Output) (doc : list Page)
  (files : list (string * list Token)) (st : Inference)
  (entry : string * string) (i k n : nat).

(** ** Reading the JSON files back *)

(** X9. After a run of [process_pdf_to_data], the JSON file that [main]
    opens for a page is the one written for that page, with the tokens
    extracted from it: no other page has written to its path. What [main]
    reads is therefore these tokens as the platform loads them, and when
    the image opens and the loading succeeds the detection model is called
    on the loaded tokens of that very page, filled. *)
Theorem read_words_of_page doc output_dir out k page pipe :
  process_pdf_to_data doc output_dir = Some out → doc !! k = Some page →
  read_words pipe (json_files out) (json_path output_dir k)
    = load_json pipe (words_data page)
  ∧ file_pairs out !! k = Some (img_path output_dir k, json_path output_dir k)
  ∧ (∀ tokens,
       open_image pipe (img_path output_dir k) = None →
       load_json pipe (words_data page) = inr tokens →
       detect pipe (json_files out) (img_path output_dir k, json_path output_dir k)
       = extract pipe (img_path output_dir k) (Fill.fill_missing_metadata tokens)).
Proof.
  intros Hrun Hk. unfold process_pdf_to_data in Hrun.
  apply process_pages_Some in Hrun as (Hfp & Hjf & _). simpl in Hfp, Hjf.
  assert (Hread : read_words pipe (json_files out) (json_path output_dir k)
                  = load_json pipe (words_data page)).
  { unfold read_words.
    destruct (list_find _ (reverse (json_files out))) as [[j [path words]]|] eqn:Hfind.
    - apply list_find_Some in Hfind as (Hj & Hpath & _). simpl in Hpath.
      apply list_elem_of_lookup_2 in Hj. rewrite elem_of_reverse in Hj.
      apply list_elem_of_lookup_1 in Hj as [k' Hk'].
      rewrite Hjf, list_lookup_imap in Hk'.
      destruct (doc !! k') as [page'|] eqn:Hpage'; [|done].
      simpl in Hk'. injection Hk' as Hpath' <-.
      rewrite <- Hpath' in Hpath.
      apply json_path_inj in Hpath. subst k'.
      by simplify_eq.
    - apply list_find_None in Hfind. rewrite Forall_forall in Hfind.
      destruct (Hfind (json_path output_dir k, words_data page)); [|done].
      apply elem_of_reverse. rewrite Hjf.
      apply list_elem_of_lookup. exists k. by rewrite list_lookup_imap, Hk. }
  split_and!; [done| |].
  - by rewrite Hfp, list_lookup_imap, Hk.
  - intros tokens Hopen Hload. unfold detect. by rewrite Hopen, Hread, Hload.
Qed.

(** ** The collected results *)

(** Entries in the order of their pages. *)
Lemma table_entries_ordered i1 k1 (c1 : string) i2 k2 (c2 : string) p1 p2 :
  (i1 ≤ i2)%nat →
  page_number (table_filename i1 k1, c1).1 = Some p1 →
  page_number (table_filename i2 k2, c2).1 = Some p2 →
  p1 ≤ p2.
Proof.
  simpl. rewrite !table_filename_page_number. intros Hle [= <-] [= <-]. lia.
Qed.

Lemma collect_spec i (tables : list ExtractedTable) : ∀ k (acc : list (string * string)),
  ∃ new, collect i k tables acc = acc ++ new
    ∧ Forall (λ entry, ∃ k' c, entry = (table_filename i k', c)
                               ∧ c ≠ EmptyString ∧ (k ≤ k')%nat) new
    ∧ NoDup new.*1.
Proof.
  induction tables as [|table tables IH]; intros k acc; simpl.
  - exists []. rewrite app_nil_r. split_and!; [done|done|constructor].
  - destruct (first_csv table) as [c|] eqn:Hc.
    + destruct (IH (S k) (acc ++ [(table_filename i k, c)]))
        as (new & -> & Hnew & Hnodup).
      exists ((table_filename i k, c) :: new). rewrite <- app_assoc.
      split_and!; [done| |].
      * constructor.
        -- exists k, c. split_and!; [done| |lia].
           unfold first_csv in Hc. destruct table as [[|c' ?]|]; [done| |done].
           case_bool_decide; by simplify_eq.
        -- eapply Forall_impl; [exact Hnew|]. intros entry (k' & c' & -> & ? & ?).
           exists k', c'. split_and!; [done|done|lia].
      * rewrite fmap_cons. constructor; [|done]. simpl.
        intros ((f & c') & Hf & Hin)%list_elem_of_fmap. simpl in Hf.
        rewrite Forall_forall in Hnew.
        destruct (Hnew _ Hin) as (k' & ? & [= -> ->] & _ & Hk').
        apply table_filename_inj in Hf as [_ ->]. lia.
    + destruct (IH (S k) acc) as (new & -> & Hnew & Hnodup).
      exists new. split_and!; [done| |done].
      eapply Forall_impl; [exact Hnew|]. intros entry (k' & c' & -> & ? & ?).
      exists k', c'. split_and!; [done|done|lia].
Qed.

Lemma infer_pages_spec pipe files (file_pairs : list (string * string)) : ∀ i st,
  ∃ new, csv_results (infer_pages pipe files i file_pairs st) = csv_results st ++ new
    ∧ Forall (λ entry, ∃ i' k c,
                entry = (table_filename i' k, c) ∧ c ≠ EmptyString
                ∧ (i ≤ i' < i + length file_pairs)%nat) new
    ∧ StronglySorted (λ entry entry', ∀ p p',
                        page_number entry.1 = Some p →
                        page_number entry'.1 = Some p' → p ≤ p') new
    ∧ NoDup new.*1.
Proof.
  induction file_pairs as [|file_pair file_pairs IH]; intros i st; simpl.
  - exists []. rewrite app_nil_r. split_and!; [done|done|constructor|constructor].
  - destruct (IH (S i) (infer_page pipe files i file_pair st))
      as (rest & -> & Hrest & Hsorted & Hnodup).
    assert (Hpage : ∃ new,
      csv_results (infer_page pipe files i file_pair st) = csv_results st ++ new
      ∧ Forall (λ entry, ∃ k c, entry = (table_filename i k, c)
                                 ∧ c ≠ EmptyString) new
      ∧ NoDup new.*1).
    { unfold infer_page. destruct (detect pipe files file_pair) as [e|tables]; simpl.
      - exists []. rewrite app_nil_r. split_and!; [done|done|constructor].
      - destruct (collect_spec i tables 0 (csv_results st))
          as (new & -> & Hnew & Hnd).
        exists new. split_and!; [done| |done].
        eapply Forall_impl; [exact Hnew|]. intros entry (k & c & -> & ? & _).
        by exists k, c. }
    destruct Hpage as (new & -> & Hnew & Hnodup').
    exists (new ++ rest). rewrite <- app_assoc. split_and!; [done| | |].
    + apply Forall_app. split.
      * eapply Forall_impl; [exact Hnew|]. intros entry (k & c & -> & Hc).
        exists i, k, c. split_and!; [done|done|lia|lia].
      * eapply Forall_impl; [exact Hrest|].
        intros entry (i' & k & c & -> & Hc & Hi').
        exists i', k, c. split_and!; [done|done|lia|lia].
    + apply StronglySorted_app. split_and!; [|clear Hsorted|done].
      * intros entry entry' Hentry Hentry' p p'.
        rewrite Forall_forall in Hnew, Hrest.
        destruct (Hnew _ Hentry) as (k & c & -> & _).
        destruct (Hrest _ Hentry') as (i' & k' & c' & -> & _ & Hi').
        apply table_entries_ordered. lia.
      * clear Hnodup'.
        induction Hnew as [|entry new (k & c & -> & _) Hnew' IHnew]; constructor;
          [done|].
        eapply Forall_impl; [exact Hnew'|]. intros entry' (k' & c' & -> & _) p p'.
        by apply table_entries_ordered.
    + rewrite fmap_app. apply NoDup_app. split_and!; [done| |done].
      intros f ((f1 & c1) & Hf1 & Hin1)%list_elem_of_fmap
               ((f2 & c2) & Hf2 & Hin2)%list_elem_of_fmap.
      simpl in Hf1, Hf2. subst f.
      rewrite Forall_forall in Hnew, Hrest.
      destruct (Hnew _ Hin1) as (k1 & ? & [= -> ->] & _).
      destruct (Hrest _ Hin2) as (i2 & k2 & ? & [= Hf ->] & _ & Hi2).
      rewrite Hf in Hf2. apply table_filename_inj in Hf2 as [-> _]. lia.
Qed.

Lemma parse_csvs_sorted (l : list (string * string)) :
  StronglySorted (λ entry entry', ∀ p p',
                    page_number entry.1 = Some p →
                    page_number entry'.1 = Some p' → p ≤ p') l →
  StronglySorted by_page (parse_csvs l).
Proof.
  unfold parse_csvs. induction 1 as [|entry l Hl IH Hentry]; [constructor|].
  cbn [omap list_omap].
  destruct (parse_entry entry) as [t|] eqn:Ht; [|done].
  constructor; [done|]. apply Forall_forall. intros t' Ht'.
  apply list_elem_of_omap in Ht' as (entry' & Hin & Hparse).
  rewrite Forall_forall in Hentry. unfold by_page.
  destruct entry as [f c], entry' as [f' c'].
  apply parse_entry_Some in Ht as (_ & Hp & _).
  apply parse_entry_Some in Hparse as (_ & Hp' & _).
  by apply (Hentry _ Hin).
Qed.

(** X10. Every entry that the inference loop collects is named after the
    page it comes from, has a non-empty CSV text, and parses in the merger
    to the 1-based number of that page; the entries are collected in page
    order, so the sort of the merger leaves them as they are. *)
Theorem inferred_results_in_page_order pipe out :
  let results := csv_results (infer pipe out) in
  (∀ entry, entry ∈ results →
     ∃ i k, (i < length (file_pairs out))%nat
            ∧ entry.1 = table_filename i k
            ∧ entry.2 ≠ EmptyString
            ∧ page_number entry.1 = Some (Z.of_nat i + 1))
  ∧ sort_by_page (parse_csvs results) = parse_csvs results.
Proof.
  intros results. subst results. unfold infer.
  destruct (infer_pages_spec pipe (json_files out) (file_pairs out) 0
              {| csv_results := []; printed := [] |})
    as (new & -> & Hnew & Hsorted & _).
  simpl. split.
  - intros entry Hentry. rewrite Forall_forall in Hnew.
    destruct (Hnew _ Hentry) as (i & k & c & -> & Hc & Hi).
    exists i, k. split_and!; [lia|done|done|apply table_filename_page_number].
  - by apply sort_by_page_sorted_id, parse_csvs_sorted.
Qed.

Lemma parse_csvs_fnames (l : list (string * string)) :
  fname <$> parse_csvs l `sublist_of` l.*1.
Proof.
  unfold parse_csvs. induction l as [|[f c] l IH]; [done|].
  cbn [omap list_omap fmap list_fmap].
  destruct (parse_entry (f, c)) as [t|] eqn:Ht.
  - apply parse_entry_Some in Ht as (<- & _). simpl. by apply sublist_skip.
  - by apply sublist_cons.
Qed.

(** X11. No two entries collected by the inference loop have the same file
    name, and so no two files of the merged output have the same name:
    the archive never gets one name twice. *)
Theorem inferred_names_distinct pipe out :
  NoDup (csv_results (infer pipe out)).*1
  ∧ NoDup (merge_cross_page_tables (csv_results (infer pipe out))).*1.
Proof.
  assert (Hnodup : NoDup (csv_results (infer pipe out)).*1).
  { unfold infer.
    destruct (infer_pages_spec pipe (json_files out) (file_pairs out) 0
                {| csv_results := []; printed := [] |})
      as (new & -> & _ & _ & Hnodup). done. }
  split; [done|].
  rewrite merge_cross_page_tables_emitted.
  eapply sublist_NoDup; [|apply fmap_sublist, emitted_sublist].
  rewrite <- list_fmap_compose.
  change (fst ∘ emit) with (fname (H := H)).
  rewrite sort_by_page_perm.
  eapply sublist_NoDup; [exact Hnodup|apply parse_csvs_fnames].
Qed.

End main_facts.

(** * The sample inputs of the inference loop *)
Section main_samples.
Import App Utils Fill Main Samples MainSamples PlainCsv.

Lemma page_paths_distinct_witness :
  img_path "/tmp/out" 9 ≠ img_path "/tmp/out" 10
  ∧ json_path "/tmp/out" 9 ≠ json_path "/tmp/out" 10.
Proof. apply (page_paths_distinct "/tmp/out" 9 10). lia. Defined.

Lemma merge_order_irrelevant_witness :
  merge_cross_page_tables [entry5; entry3] = merge_cross_page_tables [entry3; entry5].
Proof.
  apply (merge_order_irrelevant (H := pandas)).
  - apply Permutation_swap.
  - apply (bool_decide_unpack _). vm_compute. reflexivity.
Defined.

Lemma ocr_tokens_shape_witness :
  ∃ data (i : nat) t x y w h,
    image_to_data hybrid_page (zoom hybrid_page) = inr data
    ∧ d_text data !! i = Some t ∧ d_left data !! i = Some x
    ∧ d_top data !! i = Some y ∧ d_width data !! i = Some w
    ∧ d_height data !! i = Some h
    ∧ Py.strip t ≠ EmptyString
    ∧ ocr_token "Qty" 90 5 30 12
      = {[ "text" := VStr (Py.strip t);
           "bbox" := VList [VInt x; VInt y; VInt (x + w); VInt (y + h)] ]}.
Proof.
  apply (ocr_tokens_shape hybrid_page (ocr_token "Qty" 90 5 30 12)).
  - reflexivity.
  - change (words_data hybrid_page)
      with [ocr_token "Item" 10 5 40 12; ocr_token "Qty" 90 5 30 12].
    apply list_elem_of_further, list_elem_of_here.
Defined.

Lemma ocr_words_complete_witness :
  ocr_log 2 hybrid_page = []
  ∧ (λ token, token !! "text") <$> words_data hybrid_page
    = (λ t, Some (VStr t))
        <$> filter (λ t, t ≠ EmptyString) (Py.strip <$> d_text hybrid_data).
Proof.
  apply (ocr_words_complete hybrid_page hybrid_data 2); reflexivity.
Defined.

Lemma fill_written_tokens_witness :
  dom (native_token 1 word_total) = {[ "bbox"; "text" ]}
  ∧ fill_missing_metadata (words_data native_page) !! 0%nat
    = Some (<["block_num" := VInt 0]>
              (<["line_num" := VInt 0]>
                 (<["span_num" := VInt 0]> (native_token 1 word_total)))).
Proof.
  apply (fill_written_tokens native_page 0 (native_token 1 word_total)).
  reflexivity.
Defined.

Lemma read_words_of_page_witness :
  read_words pipe (json_files document_output) (json_path "/tmp/out" 2)
  = inr (words_data hybrid_page)
  ∧ detect pipe (json_files document_output)
      (img_path "/tmp/out" 2, json_path "/tmp/out" 2)
    = extract pipe (img_path "/tmp/out" 2)
        (fill_missing_metadata (words_data hybrid_page)).
Proof.
  destruct (read_words_of_page document "/tmp/out" document_output 2 hybrid_page pipe)
    as (Hread & _ & Hdetect); [reflexivity|reflexivity|].
  split; [exact Hread|]. apply Hdetect; reflexivity.
Defined.

Lemma inferred_results_in_page_order_witness :
  (∃ i k, (i < length (file_pairs document_output))%nat
          ∧ "Page_03_Table_02.csv" = table_filename i k
          ∧ page4_ab ≠ EmptyString
          ∧ page_number "Page_03_Table_02.csv" = Some (Z.of_nat i + 1))
  ∧ sort_by_page (parse_csvs results) = parse_csvs results.
Proof.
  destruct (inferred_results_in_page_order (H := pandas) pipe document_output)
    as (Hentries & Hsorted).
  split; [|exact Hsorted].
  apply (Hentries ("Page_03_Table_02.csv", page4_ab)).
  change (csv_results (infer pipe document_output))
    with [("Page_01_Table_01.csv", page3_ab); ("Page_03_Table_02.csv", page4_ab)].
  apply list_elem_of_further, list_elem_of_here.
Defined.

End main_samples.
